(** * LitServe: request routing, worker loops and fan-out aggregation

    A shallow embedding of [src/litserve/server.py] (with the example APIs of
    [src/litserve/examples/simple_example.py]) and the properties of its
    request table, channel pool, worker loops, gateway handlers and device
    assignment.

    Python objects are values of [pyval]; raised exceptions are values of
    [pyexn]; code that mutates process state or raises is written in the
    state-and-exception monad [M]. *)

From Stdlib Require Import ZArith String List Floats DecimalString.
From Stdlib Require DecimalZ DecimalPos.
From stdpp Require Import base option list gmap strings.

Local Set Warnings "-register-all".
Local Open Scope Z_scope.
Local Open Scope string_scope.
Local Open Scope list_scope.

(** ** Python values *)

(** A request identifier: [uuid.uuid4()] is a 128-bit value. *)
Definition uid := N.

(** One end of a [multiprocessing.Pipe()]: the pipe it belongs to and which of
    the two ends of the duplex pair it is. *)
Record Connection := Conn { conn_pipe : nat; conn_end : bool }.

Global Instance Connection_eq_dec : EqDecision Connection.
Proof. solve_decision. Defined.

Global Instance Connection_countable : Countable Connection.
Proof.
  refine (inj_countable' (fun c => (conn_pipe c, conn_end c))
                         (fun p => Conn p.1 p.2) _).
  by intros [].
Defined.

(** The end a message sent on [c] is read from. *)
Definition peer (c : Connection) : Connection :=
  Conn (conn_pipe c) (negb (conn_end c)).

(** Modelled from the spec: [litserve.schemas.openai.ChatCompletionRequest] is
    not part of the sources; the fields are the ones the handler reads and
    section 6 of the specification lists.  Optional fields are [option]s. *)
Record ChatCompletionRequest := {
  model : option string;
  messages : list (string * string);
  n : Z;
  stream : option bool;
  stop : option (list string);
  frequency_penalty : option float;
  presence_penalty : option float;
  max_tokens : option Z;
  top_p : option float
}.

(** A numpy array of floats: a scalar or a stack of arrays. *)
Inductive ndarray :=
| A0 (f : float)
| AN (l : list ndarray).

Inductive pyval :=
| PyNone
| PyBool (b : bool)
| PyInt (z : Z)
| PyFloat (f : float)
| PyStr (s : string)
| PyList (l : list pyval)
| PyDict (d : list (string * pyval))
| PyArray (a : ndarray)
| PyHTTPException (status_code : Z) (detail : string)
| PyChatRequest (r : ChatCompletionRequest).

(** Raised exceptions. *)
Inductive pyexn :=
| KeyError
| IndexError
| TypeError
| AttributeError
| ValueError
| Empty
| BrokenPipeError
| EOFError
| OSError
| OverflowError
| ValidationError
| HTTPException (status_code : Z) (detail : string).

Global Instance pyexn_eq_dec : EqDecision pyexn.
Proof. solve_decision. Defined.

(** The outcome of a call: a returned value or a raised exception. *)
Inductive result (A : Type) :=
| Ok (a : A)
| Raise (e : pyexn).
Arguments Ok {A} a.
Arguments Raise {A} e.

Global Instance result_ret : MRet result := fun A a => Ok a.
Global Instance result_bind : MBind result := fun A B f r =>
  match r with
  | Ok a => f a
  | Raise e => Raise e
  end.

(** ** The state-and-exception monad *)

Definition M (St A : Type) : Type := St -> result A * St.

Global Instance M_ret St : MRet (M St) := fun A a s => (Ok a, s).

Global Instance M_bind St : MBind (M St) := fun A B f m s =>
  match m s with
  | (Ok a, s') => f a s'
  | (Raise e, s') => (Raise e, s')
  end.

Definition raise {St A} (e : pyexn) : M St A := fun s => (Raise e, s).
Definition gets {St A} (f : St -> A) : M St A := fun s => (Ok (f s), s).
Definition modify {St} (f : St -> St) : M St unit := fun s => (Ok tt, f s).

(** [try: m except E: h] for the exceptions selected by [handles]. *)
Definition try_except {St A} (m : M St A) (handles : pyexn -> bool)
    (h : M St A) : M St A := fun s =>
  match m s with
  | (Raise e, s') => if handles e then h s' else (Raise e, s')
  | r => r
  end.

(** [with contextlib.suppress(E): m]. *)
Definition suppress {St} (handles : pyexn -> bool) (m : M St unit) : M St unit :=
  try_except m handles (mret tt).

(** Run [m] on a component of the state. *)
Definition zoom {St T A} (get : St -> T) (set : T -> St -> St) (m : M T A)
    : M St A := fun s =>
  let '(r, t) := m (get s) in (r, set t s).

Definition lift_result {St A} (r : result A) : M St A := fun s => (r, s).

(** [for x in xs: body x]. *)
Fixpoint for_each {St A} (xs : list A) (body : A -> M St unit) : M St unit :=
  match xs with
  | [] => mret tt
  | x :: xs' => body x ≫= fun _ => for_each xs' body
  end.

Definition is_KeyError (e : pyexn) : bool :=
  match e with KeyError => true | _ => false end.
Definition is_IndexError (e : pyexn) : bool :=
  match e with IndexError => true | _ => false end.
Definition is_BrokenPipeError (e : pyexn) : bool :=
  match e with BrokenPipeError => true | _ => false end.
Definition is_Empty_or_ValueError (e : pyexn) : bool :=
  match e with Empty | ValueError => true | _ => false end.


(** ** State shared between the gateway and the worker processes *)

(** [request_queue] is the [multiprocessing.Queue] of identifiers,
    [request_buffer] the [Manager().dict()] from an identifier to
    [(payload, sender)], [inbox c] the messages sent to the end [c] of a pipe
    and not read yet, [closed] the ends that were closed. *)
Record shared := {
  request_queue : list uid;
  queue_closed : bool;
  request_buffer : gmap uid (pyval * Connection);
  inbox : gmap Connection (list pyval);
  closed : gset Connection
}.

Definition set_request_queue (q : list uid) (s : shared) : shared :=
  {| request_queue := q; queue_closed := queue_closed s;
     request_buffer := request_buffer s; inbox := inbox s; closed := closed s |}.
Definition set_request_buffer (b : gmap uid (pyval * Connection)) (s : shared)
    : shared :=
  {| request_queue := request_queue s; queue_closed := queue_closed s;
     request_buffer := b; inbox := inbox s; closed := closed s |}.
Definition set_inbox (i : gmap Connection (list pyval)) (s : shared) : shared :=
  {| request_queue := request_queue s; queue_closed := queue_closed s;
     request_buffer := request_buffer s; inbox := i; closed := closed s |}.

(** [request_queue.get(timeout=t)]: [ValueError] on a closed queue, [Empty]
    when no identifier arrives. *)
Definition queue_get : M shared uid := fun s =>
  if queue_closed s then (Raise ValueError, s)
  else match request_queue s with
       | [] => (Raise Empty, s)
       | u :: q => (Ok u, set_request_queue q s)
       end.

(** [request_queue.put(uid)]. *)
Definition queue_put (u : uid) : M shared unit := fun s =>
  if queue_closed s then (Raise ValueError, s)
  else (Ok tt, set_request_queue (request_queue s ++ [u]) s).

(** [request_buffer.pop(uid)]: the table's take. *)
Definition buffer_pop (u : uid) : M shared (pyval * Connection) := fun s =>
  match request_buffer s !! u with
  | Some e => (Ok e, set_request_buffer (delete u (request_buffer s)) s)
  | None => (Raise KeyError, s)
  end.

(** [request_buffer[uid] = e]. *)
Definition buffer_setitem (u : uid) (e : pyval * Connection) : M shared unit :=
  modify (fun s => set_request_buffer (<[u := e]> (request_buffer s)) s).

(** The messages waiting at the end [c]. *)
Definition pending (c : Connection) (s : shared) : list pyval :=
  default [] (inbox s !! c).

(** [c.send(v)]. *)
Definition send (c : Connection) (v : pyval) : M shared unit := fun s =>
  if decide (c ∈ closed s) then (Raise OSError, s)
  else if decide (peer c ∈ closed s) then (Raise BrokenPipeError, s)
  else (Ok tt, set_inbox (<[peer c := pending (peer c) s ++ [v]]> (inbox s)) s).

(** [c.poll(timeout)] on an open end [c], once the wait is over: something
    can be read. *)
Definition poll (c : Connection) (s : shared) : bool :=
  match pending c s with
  | [] => bool_decide (peer c ∈ closed s)
  | _ :: _ => true
  end.

(** [c.recv()] when [poll] holds. *)
Definition recv (c : Connection) : M shared pyval := fun s =>
  if decide (c ∈ closed s) then (Raise OSError, s)
  else match pending c s with
       | v :: vs => (Ok v, set_inbox (<[c := vs]> (inbox s)) s)
       | [] => (Raise EOFError, s)
       end.

(** The table's take as its callers see it: [request_buffer.pop(uid)] with
    the [KeyError] of an absent identifier caught, as [single_loop],
    [batched_loop] and [cleanup] all do. *)
Definition take (u : uid) : M shared (option (pyval * Connection)) :=
  try_except (buffer_pop u ≫= fun e => mret (Some e)) is_KeyError (mret None).

(** [k] takes of the same identifier, one after the other. *)
Fixpoint takes (k : nat) (u : uid) : M shared (list (option (pyval * Connection))) :=
  match k with
  | O => mret []
  | Datatypes.S k' => r ← take u; rs ← takes k' u; mret (r :: rs)
  end.

(** [cleanup(request_buffer, uid)]. *)
Definition cleanup (u : uid) : M shared unit :=
  suppress is_KeyError (buffer_pop u ≫= fun _ => mret tt).

(** The two callers that take an identifier out of the table: a worker's
    [pop] in its loop, and the deferred [cleanup]. *)
Inductive caller :=
| Consumer
| Cleaner.

(** The callers [cs] at the table for one identifier, one after the other,
    in the order in which their pops happen to be served.  The result lists
    what each worker got; [cleanup] keeps nothing of what it popped. *)
Fixpoint race (cs : list caller) (u : uid)
    : M shared (list (option (pyval * Connection))) :=
  match cs with
  | [] => mret []
  | Consumer :: cs' => r ← take u; rs ← race cs' u; mret (r :: rs)
  | Cleaner :: cs' => cleanup u ≫= fun _ => race cs' u
  end.

(** The workers among the callers. *)
Fixpoint consumers (cs : list caller) : nat :=
  match cs with
  | [] => O
  | Consumer :: cs' => Datatypes.S (consumers cs')
  | Cleaner :: cs' => consumers cs'
  end.

(** ** Operations on Python values *)

Fixpoint dict_get (d : list (string * pyval)) (k : string) : option pyval :=
  match d with
  | [] => None
  | (k', v) :: d' => if String.eqb k' k then Some v else dict_get d' k
  end.

(** [v[k]] for a string key [k]. *)
Definition py_getitem (v : pyval) (k : string) : result pyval :=
  match v with
  | PyDict d => match dict_get d k with Some x => Ok x | None => Raise KeyError end
  | PyArray _ => Raise IndexError
  | _ => Raise TypeError
  end.

(** [v.get(k, dflt)]. *)
Definition py_get (v : pyval) (k : string) (dflt : pyval) : result pyval :=
  match v with
  | PyDict d => Ok (default dflt (dict_get d k))
  | _ => Raise AttributeError
  end.

(** Elementwise square of a float array. *)
Fixpoint array_square (a : ndarray) : ndarray :=
  match a with
  | A0 f => A0 (f * f)%float
  | AN l => AN (map array_square l)
  end.

(** [x ** 2].  On a float, the interpreter raises [OverflowError] when the
    power of a finite number overflows.  Otherwise the value is taken as the
    correctly rounded product [x * x]: it is the result of the C library's
    [pow] whenever the square is representable, and may differ from it in
    the last place when it is not. *)
Definition py_square (x : pyval) : result pyval :=
  match x with
  | PyBool b => Ok (PyInt (Z.b2z b * Z.b2z b))
  | PyInt z => Ok (PyInt (z * z))
  | PyFloat f =>
      if is_finite f && is_infinity (f * f)%float then Raise OverflowError
      else Ok (PyFloat (f * f)%float)
  | PyArray a => Ok (PyArray (array_square a))
  | _ => Raise TypeError
  end.

(** ** The user's API object *)

(** The device a replica is given: a string or a list of strings. *)
Inductive device :=
| DevStr (s : string)
| DevList (l : list string).

(** A [LitAPI] object with instance state [S]: every stage may read and write
    [self] and may raise. *)
Record LitAPI (S : Type) := {
  setup : device -> M S unit;
  decode_request : pyval -> M S pyval;
  batch : list pyval -> M S pyval;
  predict : pyval -> M S pyval;
  unbatch : pyval -> M S (list pyval);
  encode_response : pyval -> M S pyval
}.
Arguments setup {S}.
Arguments decode_request {S}.
Arguments batch {S}.
Arguments predict {S}.
Arguments unbatch {S}.
Arguments encode_response {S}.

(** ** Worker replicas *)

(** What a replica did, in order: the stage calls with their arguments and the
    values it sent. *)
Inductive event :=
| CallSetup (d : device)
| CallDecode (x_enc : pyval)
| CallBatch (inputs : list pyval)
| CallPredict (x : pyval)
| CallUnbatch (y : pyval)
| CallEncode (y : pyval)
| Sent (pipe_s : Connection) (y_enc : pyval).

(** A worker process: the API object, the shared state it reaches, and the
    record of what it did. *)
Record worker (S : Type) := {
  self : S;
  wshared : shared;
  log : list event
}.
Arguments self {S}.
Arguments wshared {S}.
Arguments log {S}.

Section Worker.
Context {S : Type} (lit_api : LitAPI S).

Definition on_self {A} (m : M S A) : M (worker S) A :=
  zoom self (fun x w => {| self := x; wshared := wshared w; log := log w |}) m.
Definition on_shared {A} (m : M shared A) : M (worker S) A :=
  zoom wshared (fun x w => {| self := self w; wshared := x; log := log w |}) m.
Definition record (e : event) : M (worker S) unit :=
  modify (fun w => {| self := self w; wshared := wshared w; log := log w ++ [e] |}).

Definition call_setup (d : device) : M (worker S) unit :=
  record (CallSetup d) ≫= fun _ => on_self (setup lit_api d).
Definition call_decode (x_enc : pyval) : M (worker S) pyval :=
  record (CallDecode x_enc) ≫= fun _ => on_self (decode_request lit_api x_enc).
Definition call_batch (inputs : list pyval) : M (worker S) pyval :=
  record (CallBatch inputs) ≫= fun _ => on_self (batch lit_api inputs).
Definition call_predict (x : pyval) : M (worker S) pyval :=
  record (CallPredict x) ≫= fun _ => on_self (predict lit_api x).
Definition call_unbatch (y : pyval) : M (worker S) (list pyval) :=
  record (CallUnbatch y) ≫= fun _ => on_self (unbatch lit_api y).
Definition call_encode (y : pyval) : M (worker S) pyval :=
  record (CallEncode y) ≫= fun _ => on_self (encode_response lit_api y).

(** [with contextlib.suppress(BrokenPipeError): pipe_s.send(y_enc)]. *)
Definition send_reply (pipe_s : Connection) (y_enc : pyval) : M (worker S) unit :=
  suppress is_BrokenPipeError
    (on_shared (send pipe_s y_enc) ≫= fun _ => record (Sent pipe_s y_enc)).

(** How the nested [try] blocks that fetch the next request end. *)
Inductive fetched :=
| Taken (x_enc : pyval) (pipe_s : Connection)
| Stale
| Idle.

(** [uid = request_queue.get(..)] followed by [request_buffer.pop(uid)]:
    [Stale] on [KeyError], [Idle] on [Empty] or [ValueError]. *)
Definition fetch : M (worker S) fetched :=
  try_except
    (uid ← on_shared queue_get;
     try_except
       ('(x_enc, pipe_s) ← on_shared (buffer_pop uid); mret (Taken x_enc pipe_s))
       is_KeyError (mret Stale))
    is_Empty_or_ValueError (mret Idle).

(** One turn of the [while True] of [single_loop]. *)
Definition single_loop_body : M (worker S) unit :=
  r ← fetch;
  match r with
  | Stale | Idle => mret tt
  | Taken x_enc pipe_s =>
      x ← call_decode x_enc;
      y ← call_predict x;
      y_enc ← call_encode y;
      send_reply pipe_s y_enc
  end.

(** The first [fuel] turns of [single_loop]. *)
Fixpoint single_loop (fuel : nat) : M (worker S) unit :=
  match fuel with
  | O => mret tt
  | Datatypes.S k => single_loop_body ≫= fun _ => single_loop k
  end.

(** The [for _ in range(max_batch_size)] of [batched_loop], with [k] turns
    left. *)
Fixpoint collect (k : nat) (inputs : list pyval) (pipes : list Connection)
    : M (worker S) (list pyval * list Connection) :=
  match k with
  | O => mret (inputs, pipes)
  | Datatypes.S k' =>
      r ← fetch;
      match r with
      | Idle => mret (inputs, pipes)
      | Stale => collect k' inputs pipes
      | Taken x_enc pipe_s =>
          x ← call_decode x_enc;
          collect k' (inputs ++ [x]) (pipes ++ [pipe_s])
      end
  end.

(** One turn of the [while True] of [batched_loop]. *)
Definition batched_loop_body (max_batch_size : Z) : M (worker S) unit :=
  '(inputs, pipes) ← collect (Z.to_nat max_batch_size) [] [];
  match inputs with
  | [] => mret tt
  | _ :: _ =>
      x ← call_batch inputs;
      y ← call_predict x;
      outputs ← call_unbatch y;
      for_each (zip pipes outputs) (fun '(pipe_s, y) =>
        y_enc ← call_encode y;
        send_reply pipe_s y_enc)
  end.

Fixpoint batched_loop (fuel : nat) (max_batch_size : Z) : M (worker S) unit :=
  match fuel with
  | O => mret tt
  | Datatypes.S k =>
      batched_loop_body max_batch_size ≫= fun _ => batched_loop k max_batch_size
  end.

(** The first [fuel] turns of the loop of [inference_worker], after its
    [setup]. *)
Definition inference_worker (fuel : nat) (d : device) (worker_id : nat)
    (max_batch_size : Z) : M (worker S) unit :=
  call_setup d ≫= fun _ =>
  if bool_decide (max_batch_size > 1)
  then batched_loop fuel max_batch_size
  else single_loop fuel.
End Worker.

(** ** The float-array fragment of numpy used by the batched example *)

Fixpoint shape (a : ndarray) : list nat :=
  match a with
  | A0 _ => []
  | AN l => length l :: match l with [] => [] | x :: _ => shape x end
  end.

Definition same_shapes (l : list ndarray) : bool :=
  match l with
  | [] => true
  | x :: _ => forallb (fun y => bool_decide (shape y = shape x)) l
  end.

Fixpoint well_shaped (a : ndarray) : bool :=
  match a with
  | A0 _ => true
  | AN l => forallb well_shaped l && same_shapes l
  end.

Fixpoint to_array (v : pyval) : option ndarray :=
  match v with
  | PyFloat f => Some (A0 f)
  | PyArray a => Some a
  | PyList l =>
      AN <$> (fix go (l : list pyval) : option (list ndarray) :=
                match l with
                | [] => Some []
                | x :: l' =>
                    match to_array x, go l' with
                    | Some a, Some r => Some (a :: r)
                    | _, _ => None
                    end
                end) l
  | _ => None
  end.

(** [np.asarray(v)] on floats, float arrays and nested lists of them; other
    payloads are outside the fragment and are reported as [TypeError]. *)
Definition np_asarray (v : pyval) : result pyval :=
  match to_array v with
  | Some a => if well_shaped a then Ok (PyArray a) else Raise ValueError
  | None => Raise TypeError
  end.

Definition as_arrays (vs : list pyval) : option (list ndarray) :=
  mapM to_array vs.

(** [numpy.stack(inputs)]: every input is taken as an array, and all must
    have one shape. *)
Definition np_stack (inputs : list pyval) : result pyval :=
  match as_arrays inputs with
  | Some (a :: l) =>
      if same_shapes (a :: l) then Ok (PyArray (AN (a :: l))) else Raise ValueError
  | Some [] => Raise ValueError
  | None => Raise TypeError
  end.

(** [list(v)]. *)
Definition py_list (v : pyval) : result (list pyval) :=
  match v with
  | PyList l => Ok l
  | PyArray (AN l) => Ok (map PyArray l)
  | PyDict d => Ok (map (fun kv => PyStr kv.1) d)
  | PyStr s => Ok (map (fun c => PyStr (String c EmptyString)) (list_ascii_of_string s))
  | _ => Raise TypeError
  end.

(** ** The example APIs *)

Module LitAPIBase.
(** Modelled from the spec: the [LitAPI] base class ([litserve/api.py]) is
    not part of the sources.  Its batch stage is the identity on a sequence
    of inputs, stacking them when they are arrays. *)
Definition batch {S} (inputs : list pyval) : M S pyval :=
  match inputs with
  | PyArray _ :: _ => lift_result (np_stack inputs)
  | _ => mret (PyList inputs)
  end.

(** Modelled from the spec: the unbatch stage of the absent [LitAPI] base
    class splits the batched output into one output per input, in order. *)
Definition unbatch {S} (output : pyval) : M S (list pyval) :=
  lift_result (py_list output).
End LitAPIBase.

(** [self.model]: unset until [setup] stores the callable. *)
Record model_state := { model_fn : option (pyval -> result pyval) }.

(** [self.model(x)]. *)
Definition call_model {St} (s : model_state) (x : pyval) : M St pyval :=
  match model_fn s with
  | Some f => lift_result (f x)
  | None => raise AttributeError
  end.

Module SimpleLitAPI.
Definition setup (d : device) : M model_state unit :=
  modify (fun _ => {| model_fn := Some py_square |}).

Definition decode_request (request : pyval) : M model_state pyval :=
  lift_result (py_getitem request "input").

Definition predict (x : pyval) : M model_state pyval :=
  fun s => call_model s x s.

Definition encode_response (output : pyval) : M model_state pyval :=
  mret (PyDict [("output", output)]).

Definition api : LitAPI model_state :=
  Build_LitAPI model_state setup decode_request LitAPIBase.batch predict
               LitAPIBase.unbatch encode_response.
End SimpleLitAPI.

Module SimpleBatchedAPI.
Definition setup (d : device) : M model_state unit :=
  modify (fun _ => {| model_fn := Some py_square |}).

Definition decode_request (request : pyval) : M model_state pyval :=
  x ← lift_result (py_getitem request "input");
  lift_result (np_asarray x).

Definition predict (x : pyval) : M model_state pyval :=
  fun s => call_model s x s.

Definition encode_response (output : pyval) : M model_state pyval :=
  mret (PyDict [("output", output)]).

Definition api : LitAPI model_state :=
  Build_LitAPI model_state setup decode_request LitAPIBase.batch predict
               LitAPIBase.unbatch encode_response.
End SimpleBatchedAPI.

(** The API of [examples/openai_spec_example.py]: [self] holds whether the
    model was set and the lines the stages printed. *)
Module OpenAILitAPI.
Record state := { model_set : bool; printed_lines : list string }.

Definition say (line : string) : M state unit :=
  modify (fun s => {| model_set := model_set s;
                      printed_lines := printed_lines s ++ [line] |}).

Definition setup (d : device) : M state unit :=
  modify (fun s => {| model_set := true; printed_lines := printed_lines s |}).

Definition decode_request (request : pyval) : M state pyval :=
  say "decode_request called from LitAPI";;
  mret request.

Definition predict (x : pyval) : M state pyval :=
  mret (PyStr "This is a generated output").

Definition encode_response (output : pyval) : M state pyval :=
  say "encode_response called from LitAPI";;
  mret (PyDict [("text", output)]).

Definition api : LitAPI state :=
  Build_LitAPI state setup decode_request LitAPIBase.batch predict
               LitAPIBase.unbatch encode_response.
End OpenAILitAPI.

(** ** The gateway *)

(** A deferred call [cleanup(request_buffer, uid)] handed to the request's
    [BackgroundTasks]. *)
Inductive task :=
| CleanupTask (u : uid).

(** The [LitServer] object with its [app]: the state the gateway process
    holds.  [uuid_source] and [uuid_drawn] stand for the entropy [uuid.uuid4()]
    draws from, [next_pipe] names the next pipe [Pipe()] creates, and
    [background_tasks] is the [BackgroundTasks] object of the request being
    handled. *)
Record LitServer := {
  app_shared : shared;
  app_devices : option (list device);
  app_workers_per_device : Z;
  app_timeout : Z;
  app_max_batch_size : Z;
  max_pool_size : Z;
  pipe_pool : list (Connection * Connection);
  next_pipe : nat;
  uuid_source : nat -> uid;
  uuid_drawn : nat;
  background_tasks : list task
}.

Definition set_app_shared (x : shared) (g : LitServer) : LitServer :=
  {| app_shared := x; app_devices := app_devices g;
     app_workers_per_device := app_workers_per_device g;
     app_timeout := app_timeout g; app_max_batch_size := app_max_batch_size g;
     max_pool_size := max_pool_size g; pipe_pool := pipe_pool g;
     next_pipe := next_pipe g; uuid_source := uuid_source g;
     uuid_drawn := uuid_drawn g; background_tasks := background_tasks g |}.
Definition set_pipe_pool (x : list (Connection * Connection)) (g : LitServer)
    : LitServer :=
  {| app_shared := app_shared g; app_devices := app_devices g;
     app_workers_per_device := app_workers_per_device g;
     app_timeout := app_timeout g; app_max_batch_size := app_max_batch_size g;
     max_pool_size := max_pool_size g; pipe_pool := x;
     next_pipe := next_pipe g; uuid_source := uuid_source g;
     uuid_drawn := uuid_drawn g; background_tasks := background_tasks g |}.
Definition set_next_pipe (x : nat) (g : LitServer) : LitServer :=
  {| app_shared := app_shared g; app_devices := app_devices g;
     app_workers_per_device := app_workers_per_device g;
     app_timeout := app_timeout g; app_max_batch_size := app_max_batch_size g;
     max_pool_size := max_pool_size g; pipe_pool := pipe_pool g;
     next_pipe := x; uuid_source := uuid_source g;
     uuid_drawn := uuid_drawn g; background_tasks := background_tasks g |}.
Definition set_uuid_drawn (x : nat) (g : LitServer) : LitServer :=
  {| app_shared := app_shared g; app_devices := app_devices g;
     app_workers_per_device := app_workers_per_device g;
     app_timeout := app_timeout g; app_max_batch_size := app_max_batch_size g;
     max_pool_size := max_pool_size g; pipe_pool := pipe_pool g;
     next_pipe := next_pipe g; uuid_source := uuid_source g;
     uuid_drawn := x; background_tasks := background_tasks g |}.
Definition set_background_tasks (x : list task) (g : LitServer) : LitServer :=
  {| app_shared := app_shared g; app_devices := app_devices g;
     app_workers_per_device := app_workers_per_device g;
     app_timeout := app_timeout g; app_max_batch_size := app_max_batch_size g;
     max_pool_size := max_pool_size g; pipe_pool := pipe_pool g;
     next_pipe := next_pipe g; uuid_source := uuid_source g;
     uuid_drawn := uuid_drawn g; background_tasks := x |}.

Definition on_app {A} (m : M shared A) : M LitServer A :=
  zoom app_shared set_app_shared m.

(** [uuid.uuid4()]. *)
Definition uuid4 : M LitServer uid := fun g =>
  (Ok (uuid_source g (uuid_drawn g)), set_uuid_drawn (Datatypes.S (uuid_drawn g)) g).

(** [Pipe()]: the two ends of a fresh duplex pipe. *)
Definition Pipe : M LitServer (Connection * Connection) := fun g =>
  (Ok (Conn (next_pipe g) false, Conn (next_pipe g) true),
   set_next_pipe (Datatypes.S (next_pipe g)) g).

(** [self.pipe_pool.pop()]: the last pair, [IndexError] on an empty list. *)
Definition pool_pop : M LitServer (Connection * Connection) := fun g =>
  match rev (pipe_pool g) with
  | [] => (Raise IndexError, g)
  | p :: r => (Ok p, set_pipe_pool (rev r) g)
  end.

(** [new_pipe]: a pooled pair, or a fresh one when the pool is empty. *)
Definition new_pipe : M LitServer (Connection * Connection) :=
  try_except pool_pop is_IndexError Pipe.

(** [self.pipe_pool.append(pipe_s, pipe_r)]: [list.append] takes exactly one
    argument, so a call with two raises [TypeError] and leaves the list as it
    is. *)
Definition pool_append_2 (pipe_s pipe_r : Connection) : M LitServer unit :=
  raise TypeError.

(** [dispose_pipe]: return above the maximum, else the [append] call. *)
Definition dispose_pipe (pipe_s pipe_r : Connection) : M LitServer unit := fun g =>
  if bool_decide (Z.of_nat (length (pipe_pool g)) > max_pool_size g)
  then (Ok tt, g)
  else pool_append_2 pipe_s pipe_r g.

(** [background_tasks.add_task(cleanup, self.app.request_buffer, uid)]. *)
Definition add_task (t : task) : M LitServer unit :=
  modify (fun g => set_background_tasks (background_tasks g ++ [t]) g).

(** Running a deferred call. *)
Definition run_task (t : task) : M shared unit :=
  match t with CleanupTask u => cleanup u end.

(** The web framework (FastAPI, which is not part of the sources) attaches
    the request's [BackgroundTasks] to the response of a handler that
    returned, and runs the tasks in the order they were added once that
    response is sent. *)
Definition run_background_tasks : M LitServer unit := fun g =>
  on_app (for_each (background_tasks g) run_task) (set_background_tasks [] g).

(** A request from the handler's call to the end of its handling by the
    framework.  The tasks run after a handler that returned.  When the handler
    raises, the framework's exception handler builds the error response, to
    which no [BackgroundTasks] is attached: the tasks the handler added are
    dropped with the request and never run. *)
Definition serve {A} (handler : M LitServer A) : M LitServer A := fun g =>
  match handler g with
  | (Ok a, g') => (Ok a, (run_background_tasks g').2)
  | (Raise e, g') => (Raise e, set_background_tasks [] g')
  end.

(** The value [get_from_pipe] returns when nothing arrived in time. *)
Definition timed_out : pyval := PyHTTPException 504 "Request timed out".

(** Modelled from the spec: the response schemas of
    [litserve.schemas.openai] are not part of the sources.  A choice carries
    its index, an assistant message and a finish reason; the usage counters
    are the prompt, completion and total units, zero by default. *)
Record ChatMessage := { role : string; content : pyval }.
Record ChatCompletionResponseChoice := {
  index : nat;
  message : ChatMessage;
  finish_reason : pyval
}.
Record UsageInfo := { prompt : Z; completion : Z; total : Z }.
Record ChatCompletionResponse := {
  response_model : string;
  choices : list ChatCompletionResponseChoice;
  usage : UsageInfo
}.

(** [UsageInfo()]. *)
Definition UsageInfo_default : UsageInfo :=
  {| prompt := 0; completion := 0; total := 0 |}.

Definition parse_counter (d : list (string * pyval)) (k : string) : result Z :=
  match dict_get d k with
  | None => Ok 0
  | Some (PyInt z) => Ok z
  | Some _ => Raise ValidationError
  end.

(** Modelled from the spec: [UsageInfo.parse_obj(v)] reads the counters a
    sub-response reports; a counter it does not report is zero. *)
Definition UsageInfo_parse_obj (v : pyval) : result UsageInfo :=
  match v with
  | PyDict d =>
      p ← parse_counter d "prompt";
      c ← parse_counter d "completion";
      t ← parse_counter d "total";
      mret {| prompt := p; completion := c; total := t |}
  | _ => Raise ValidationError
  end.

(** The [setattr(usage, key, getattr(usage, key) + value)] loop over the
    fields of [task_usage]. *)
Definition usage_add (usage task_usage : UsageInfo) : UsageInfo :=
  {| prompt := prompt usage + prompt task_usage;
     completion := completion usage + completion task_usage;
     total := total usage + total task_usage |}.

(** [k in v] for a string [k]. *)
Definition py_contains (k : string) (v : pyval) : result bool :=
  match v with
  | PyDict d => Ok (bool_decide (is_Some (dict_get d k)))
  | PyStr s => Ok (bool_decide (is_Some (String.index 0 k s)))
  | PyList l =>
      Ok (existsb (fun x => match x with PyStr s => String.eqb s k | _ => false end) l)
  | PyArray _ | PyChatRequest _ => Ok false
  | _ => Raise TypeError
  end.

(** Truth value of an optional float. *)
Definition truthy (o : option float) : bool :=
  match o with
  | Some f => negb (f =? 0)%float
  | None => false
  end.

(** [o != 1.0]. *)
Definition differs_from_one (o : option float) : bool :=
  match o with
  | Some f => negb (f =? 1)%float
  | None => true
  end.

Module Routes.
Section Gateway.
(** [env t s]: the shared state once a wait of at most [t] seconds started
    in [s] is over; it is what the worker processes did meanwhile. *)
Variable env : Z -> shared -> shared.

(** [pipe.poll(timeout)] blocks the gateway while the workers run; then the
    pipe is read, or the 504 value is returned, not raised. *)
Definition get_from_pipe (pipe : Connection) (timeout : Z) : M shared pyval :=
  fun s =>
    let s' := env timeout s in
    if poll pipe s' then recv pipe s' else (Ok timed_out, s').

(** The handler of [POST /predict], given the request data: the JSON body, or
    the request itself when the API declares a request type. *)
Definition predict (request_data : pyval) : M LitServer pyval :=
  uid ← uuid4;
  '(pipe_s, pipe_r) ← new_pipe;
  on_app (buffer_setitem uid (request_data, pipe_s));;
  on_app (queue_put uid);;
  add_task (CleanupTask uid);;
  timeout ← gets app_timeout;
  data ← on_app (get_from_pipe pipe_r timeout);
  match data with
  | PyHTTPException status_code detail => raise (HTTPException status_code detail)
  | _ => mret data
  end.

(** The part of [predict] that precedes its [await]: the identifier it
    minted and the receiver it goes on to wait on. *)
Definition enqueue (request_data : pyval) : M LitServer (uid * Connection) :=
  uid ← uuid4;
  '(pipe_s, pipe_r) ← new_pipe;
  on_app (buffer_setitem uid (request_data, pipe_s));;
  on_app (queue_put uid);;
  add_task (CleanupTask uid);;
  mret (uid, pipe_r).

(** The parameter checks at the head of [chat]. *)
Definition check_parameters (request : ChatCompletionRequest) : result unit :=
  if bool_decide (stream request = Some true) then
    Raise (HTTPException 400 "Streaming not currently supported")
  else if bool_decide (stop request ≠ None) then
    Raise (HTTPException 400 "Parameter stop not currently supported")
  else if truthy (frequency_penalty request) then
    Raise (HTTPException 400 "Parameter frequency_penalty not currently supported")
  else if truthy (presence_penalty request) then
    Raise (HTTPException 400 "Parameter presence_penalty not currently supported")
  else if bool_decide (max_tokens request ≠ None) then
    Raise (HTTPException 400 "Parameter max_tokens not currently supported")
  else if differs_from_one (top_p request) then
    Raise (HTTPException 400 "Parameter top_p not currently supported")
  else Ok tt.

(** The body of [for uid in uids] in [chat]; the result is the receiver
    appended to [pipes]. *)
Definition dispatch (request : ChatCompletionRequest) (uid : uid)
    : M LitServer Connection :=
  '(pipe_s, pipe_r) ← new_pipe;
  on_app (buffer_setitem uid (PyChatRequest request, pipe_s));;
  on_app (queue_put uid);;
  add_task (CleanupTask uid);;
  mret pipe_r.

(** The body of [for pipe_r in pipes]; the result is the value appended to
    [responses]. *)
Definition await_reply (pipe_r : Connection) : M LitServer pyval :=
  timeout ← gets app_timeout;
  on_app (get_from_pipe pipe_r timeout).

(** The body of [for i, response in enumerate(responses)]: the choice that
    is appended and the usage after the update. *)
Definition aggregate_one (i : nat) (response : pyval) (usage : UsageInfo)
    : result (ChatCompletionResponseChoice * UsageInfo) :=
  text ← py_getitem response "text";
  reason ← py_get response "finish_reason" (PyStr "stop");
  reported ← py_contains "usage" response;
  task_usage ← (if reported : bool
                then py_getitem response "usage" ≫= UsageInfo_parse_obj
                else Ok UsageInfo_default);
  mret ({| index := i;
           message := {| role := "assistant"; content := text |};
           finish_reason := reason |},
        usage_add usage task_usage).

Fixpoint aggregate (i : nat) (responses : list pyval)
    (choices : list ChatCompletionResponseChoice) (usage : UsageInfo)
    : result (list ChatCompletionResponseChoice * UsageInfo) :=
  match responses with
  | [] => Ok (choices, usage)
  | response :: rest =>
      '(choice, usage') ← aggregate_one i response usage;
      aggregate (Datatypes.S i) rest (choices ++ [choice]) usage'
  end.

(** [request.model or "litserve"]. *)
Definition model_or_default (request : ChatCompletionRequest) : string :=
  match model request with
  | Some (String c s) => String c s
  | _ => "litserve"
  end.

(** The two dispatch loops of [chat]: one identifier, table entry and pipe
    per requested completion, then one awaited value per pipe. *)
Definition fan_out (request : ChatCompletionRequest) : M LitServer (list pyval) :=
  uids ← mapM (fun _ => uuid4) (seq 0 (Z.to_nat (n request)));
  pipes ← mapM (dispatch request) uids;
  mapM await_reply pipes.

(** The aggregation that ends [chat]. *)
Definition respond (request : ChatCompletionRequest) (responses : list pyval)
    : result ChatCompletionResponse :=
  '(choices, usage) ← aggregate 0 responses [] UsageInfo_default;
  mret {| response_model := model_or_default request;
          choices := choices; usage := usage |}.

(** The handler of [POST /v1/chat/completions]. *)
Definition chat (request : ChatCompletionRequest)
    : M LitServer ChatCompletionResponse :=
  lift_result (check_parameters request);;
  responses ← fan_out request;
  lift_result (respond request responses).
End Gateway.
End Routes.

(** ** Devices and replicas *)

(** An entry of the [devices] argument: one index, or the indices a single
    replica spans. *)
Inductive device_index :=
| Index (i : Z)
| Indices (l : list Z).

(** The [devices] argument: a count or a list of entries. *)
Inductive devices_arg :=
| DeviceCount (k : Z)
| DeviceList (l : list device_index).

(** [f"{z}"] for an integer. *)
Definition format_int (z : Z) : string := NilZero.string_of_int (Z.to_int z).

(** [f"{accelerator}:{el}"]. *)
Definition identifier (accelerator : string) (el : Z) : string :=
  String.append accelerator (String.append ":" (format_int el)).

Definition device_identifiers (accelerator : string) (d : device_index)
    : list string :=
  match d with
  | Indices l => map (identifier accelerator) l
  | Index i => [identifier accelerator i]
  end.

(** [range(k)]. *)
Definition range (k : Z) : list Z := map Z.of_nat (seq 0 (Z.to_nat k)).

(** The device list [__init__] stores in [app.devices]; nothing is stored for
    an accelerator it does not know. *)
Definition init_devices (accelerator : string) (devices : devices_arg)
    : option (list device) :=
  if String.eqb accelerator "cpu" then Some [DevStr accelerator]
  else if String.eqb accelerator "cuda" || String.eqb accelerator "gpu" then
    let device_list :=
      match devices with
      | DeviceCount k => map Index (range k)
      | DeviceList l => l
      end in
    Some (map (fun d => DevList (device_identifiers accelerator d)) device_list)
  else None.

Definition initial_pool_size : nat := 100.

(** [LitServer.__init__]. *)
Definition LitServer_init (entropy : nat -> uid) (accelerator : string)
    (devices : devices_arg) (workers_per_device timeout max_batch_size : Z)
    : LitServer :=
  {| app_shared := {| request_queue := []; queue_closed := false;
                      request_buffer := ∅; inbox := ∅; closed := ∅ |};
     app_devices := init_devices accelerator devices;
     app_workers_per_device := workers_per_device;
     app_timeout := timeout;
     app_max_batch_size := max_batch_size;
     max_pool_size := 1000;
     pipe_pool := map (fun i => (Conn i false, Conn i true)) (seq 0 initial_pool_size);
     next_pipe := initial_pool_size;
     uuid_source := entropy;
     uuid_drawn := O;
     background_tasks := [] |}.

(** [l * k] on a list. *)
Definition list_repeat {A} (l : list A) (k : Z) : list A :=
  concat (replicate (Z.to_nat k) l).

(** The [if len(device) == 1: device = device[0]] of [lifespan]. *)
Definition unwrap_device (d : device) : device :=
  match d with
  | DevList [x] => DevStr x
  | _ => d
  end.

(** A started [Process(target=inference_worker, args=...)]. *)
Record Process := {
  proc_device : device;
  proc_worker_id : nat;
  proc_max_batch_size : Z
}.

(** The start-up part of [lifespan]: the fresh queue and table, and the
    processes it starts. *)
Definition lifespan : M LitServer (list Process) := fun g =>
  let g' := set_app_shared
              {| request_queue := []; queue_closed := false;
                 request_buffer := ∅; inbox := inbox (app_shared g);
                 closed := closed (app_shared g) |} g in
  match app_devices g' with
  | None => (Raise AttributeError, g')
  | Some devices =>
      (Ok (imap (fun worker_id d =>
                   {| proc_device := unwrap_device d;
                      proc_worker_id := worker_id;
                      proc_max_batch_size := app_max_batch_size g' |})
                (list_repeat devices (app_workers_per_device g'))), g')
  end.

(** What a started process runs, for [fuel] turns of its loop. *)
Definition run_process {S} (lit_api : LitAPI S) (fuel : nat) (p : Process)
    : M (worker S) unit :=
  inference_worker lit_api fuel (proc_device p) (proc_worker_id p)
                   (proc_max_batch_size p).


(** ** Authentication and the liveness route *)

Module Auth.
(** [no_auth()]. *)
Definition no_auth : result unit := Ok tt.

Definition invalid_key_detail : string :=
  "Invalid API Key. Check that you are passing a correct 'X-API-Key' in your header.".

(** The dependency [APIKeyHeader(name="X-API-Key")] of the framework (FastAPI,
    which is not part of the sources), given the header of the request when
    it carries one.  A request whose header is absent or empty is answered
    by the framework with its own error, [not_authenticated], whose status
    depends on the framework's version; the function that depends on the
    header is not called then. *)
Definition APIKeyHeader (not_authenticated : pyexn) (header : option string)
    : result string :=
  match header with
  | Some (String c k) => Ok (String c k)
  | Some EmptyString | None => Raise not_authenticated
  end.

(** The body of [api_key_auth(x_api_key)], given the value [os.environ.get]
    stored in [LIT_SERVER_API_KEY] and the header value the dependency
    handed over. *)
Definition api_key_auth (LIT_SERVER_API_KEY : option string) (x_api_key : string)
    : result unit :=
  if bool_decide (Some x_api_key ≠ LIT_SERVER_API_KEY)
  then Raise (HTTPException 401 invalid_key_detail)
  else Ok tt.

(** The function [setup_auth()] returns. *)
Inductive dependency :=
| ApiKeyAuth
| NoAuth.

(** [setup_auth()]: the key counts when it is set and not empty. *)
Definition setup_auth (LIT_SERVER_API_KEY : option string) : dependency :=
  match LIT_SERVER_API_KEY with
  | Some (String _ _) => ApiKeyAuth
  | _ => NoAuth
  end.

(** Running the dependency of a route on a request: [api_key_auth] behind
    the header dependency of its parameter, or [no_auth], which reads
    nothing of the request. *)
Definition depends (not_authenticated : pyexn) (LIT_SERVER_API_KEY : option string)
    (d : dependency) (header : option string) : result unit :=
  match d with
  | ApiKeyAuth =>
      x_api_key ← APIKeyHeader not_authenticated header;
      api_key_auth LIT_SERVER_API_KEY x_api_key
  | NoAuth => no_auth
  end.

(** The handler of [GET /] behind its dependency: the content of the
    response. *)
Definition index (not_authenticated : pyexn) (LIT_SERVER_API_KEY : option string)
    (header : option string) : result string :=
  depends not_authenticated LIT_SERVER_API_KEY (setup_auth LIT_SERVER_API_KEY) header;;
  Ok "litserve running".
End Auth.

(** * Statements and example states *)

(** ** Example states *)

(** A table that holds one request, queued under the identifier 7. *)
Definition table_demo : shared :=
  {| request_queue := [7%N]; queue_closed := false;
     request_buffer := {[ 7%N := (PyDict [("input", PyFloat 4)], Conn 0 false) ]};
     inbox := ∅; closed := ∅ |}.

(** The encoded reply of the batched square API for the output [f]. *)
Definition square_reply (f : float) : pyval := PyDict [("output", PyArray (A0 f))].

(** A replica of the simple square API, set up, facing [table_demo]. *)
Definition single_demo : worker model_state :=
  {| self := {| model_fn := Some py_square |};
     wshared := table_demo;
     log := [] |}.

(** A replica of the batched square API, set up, with two requests queued. *)
Definition batched_demo : worker model_state :=
  {| self := {| model_fn := Some py_square |};
     wshared :=
       {| request_queue := [1%N; 2%N]; queue_closed := false;
          request_buffer :=
            {[ 1%N := (PyDict [("input", PyFloat 4)], Conn 0 false);
               2%N := (PyDict [("input", PyFloat 5)], Conn 1 false) ]};
          inbox := ∅; closed := ∅ |};
     log := [] |}.

(** No worker makes progress while the gateway waits. *)
Definition idle : Z -> shared -> shared := fun _ s => s.

(** A server as [LitServer(api)] builds it, with the defaults of [__init__]. *)
Definition server_demo : LitServer :=
  LitServer_init (fun i => N.of_nat i) "cpu" (DeviceCount 1) 1 30 1.

(** The body of a [/predict] request for the square APIs. *)
Definition request_demo : pyval := PyDict [("input", PyFloat 4)].

(** One turn of a replica of the simple square API while the gateway waits. *)
Definition square_worker : Z -> shared -> shared := fun _ s =>
  wshared (single_loop SimpleLitAPI.api 1
             {| self := {| model_fn := Some py_square |}; wshared := s; log := [] |}).2.

(** One turn of a replica of [lit_api], whose API object is [self0], while
    the gateway waits. *)
Definition replica_turn {S} (lit_api : LitAPI S) (self0 : S)
    : Z -> shared -> shared := fun _ s =>
  wshared (single_loop lit_api 1 {| self := self0; wshared := s; log := [] |}).2.

(** An operation on the channel pool: [new_pipe()] or [dispose_pipe(s, r)]. *)
Inductive pool_op :=
| Acquire
| Release (pipe_s pipe_r : Connection).

(** The server after one pool operation, whether it raised or not. *)
Definition pool_step (g : LitServer) (op : pool_op) : LitServer :=
  match op with
  | Acquire => (new_pipe g).2
  | Release pipe_s pipe_r => (dispose_pipe pipe_s pipe_r g).2
  end.

(** ** Chat-completion requests and sub-responses *)

(** An optional float that is set and is not zero. *)
Definition nonzero (o : option float) : Prop :=
  exists f, o = Some f /\ (f =? 0)%float = false.

(** An optional float that is not [1.0]. *)
Definition not_one (o : option float) : Prop :=
  forall f, o = Some f -> (f =? 1)%float = false.

(** A request that sets a parameter the endpoint does not support. *)
Definition unsupported (request : ChatCompletionRequest) : Prop :=
  stream request = Some true \/
  stop request <> None \/
  nonzero (frequency_penalty request) \/
  nonzero (presence_penalty request) \/
  max_tokens request <> None \/
  not_one (top_p request).

(** A request that overrides [top_p] with 0.9. *)
Definition top_p_request : ChatCompletionRequest :=
  {| model := None; messages := [("user", "hello")]; n := 2;
     stream := Some false; stop := None;
     frequency_penalty := Some 0%float; presence_penalty := Some 0%float;
     max_tokens := None; top_p := Some 0x1.ccccccccccccdp-1%float |}.

(** What a well-formed sub-response reports as usage: nothing counts as zero
    usage. *)
Definition reported_usage (d : list (string * pyval)) : option UsageInfo :=
  match dict_get d "usage" with
  | None => Some UsageInfo_default
  | Some v => match UsageInfo_parse_obj v with Ok u => Some u | Raise _ => None end
  end.

(** A sub-response that arrived: a dictionary with a text, whose usage, when
    it reports one, is a record of counters. *)
Definition arrived (r : pyval) : Prop :=
  exists d, r = PyDict d /\ is_Some (dict_get d "text") /\ is_Some (reported_usage d).

(** The text, the finish reason and the usage of a sub-response. *)
Definition text_of (r : pyval) : pyval :=
  match r with PyDict d => default PyNone (dict_get d "text") | _ => PyNone end.
Definition reason_of (r : pyval) : pyval :=
  match r with
  | PyDict d => default (PyStr "stop") (dict_get d "finish_reason")
  | _ => PyStr "stop"
  end.
Definition usage_of (r : pyval) : UsageInfo :=
  match r with
  | PyDict d => default UsageInfo_default (reported_usage d)
  | _ => UsageInfo_default
  end.

(** The choice the [i]-th sub-response is to become. *)
Definition choice_of (i : nat) (r : pyval) : ChatCompletionResponseChoice :=
  {| index := i;
     message := {| role := "assistant"; content := text_of r |};
     finish_reason := reason_of r |}.

Definition sum_list (l : list Z) : Z := foldr Z.add 0 l.

(** Two sub-responses, with usage totals 3 and 2. *)
Definition reply_a : pyval :=
  PyDict [("text", PyStr "a"); ("usage", PyDict [("total", PyInt 3)])].
Definition reply_b : pyval :=
  PyDict [("text", PyStr "b"); ("usage", PyDict [("total", PyInt 2)])].

(** Workers that answer every queued request while the gateway waits: the
    request with identifier 0 with [reply_a], the others with [reply_b]. *)
Definition answer (u : uid) : M shared unit :=
  e ← buffer_pop u;
  send e.2 (if (u =? 0)%N then reply_a else reply_b).

Definition canned_replies : Z -> shared -> shared := fun _ s =>
  (for_each (request_queue s) (fun u => suppress (fun _ => true) (answer u))
            (set_request_queue [] s)).2.

(** A supported request for two completions. *)
Definition fan_out_request : ChatCompletionRequest :=
  {| model := None; messages := [("user", "hello")]; n := 2;
     stream := Some false; stop := None;
     frequency_penalty := Some 0%float; presence_penalty := Some 0%float;
     max_tokens := None; top_p := Some 1%float |}.


(** ** Statements about replies and the pool *)

(** The senders a replica delivered on, in order. *)
Definition senders (l : list event) : list Connection :=
  omap (fun e => match e with Sent pipe_s _ => Some pipe_s | _ => None end) l.

(** The three stages a request goes through, on the API object alone. *)
Definition stages {S} (lit_api : LitAPI S) (x_enc : pyval) : M S pyval :=
  decode_request lit_api x_enc ≫= fun x =>
  predict lit_api x ≫= fun y =>
  encode_response lit_api y.

(** A computation of a replica whose sends go to senders of [ps] only, in the
    order of [ps], at most once for each occurrence in [ps]. *)
Definition sends_within {S A} (ps : list Connection) (m : M (worker S) A) : Prop :=
  forall w, exists ss,
    senders (log (m w).2) = senders (log w) ++ ss /\ ss `sublist_of` ps.

(** The senders the [for] loop of [batched_loop] collects from [w]. *)
Definition collected_pipes {S} (lit_api : LitAPI S) (max_batch_size : Z)
    (w : worker S) : list Connection :=
  match (collect lit_api (Z.to_nat max_batch_size) [] [] w).1 with
  | Ok (_, pipes) => pipes
  | Raise _ => []
  end.

(** A pool as [__init__] and [Pipe()] produce it: every pair is the two ends
    of one pipe that was created before, and no pair occurs twice. *)
Definition pool_wf (g : LitServer) : Prop :=
  NoDup (pipe_pool g) /\
  Forall (fun p => exists i, p = (Conn i false, Conn i true) /\ (i < next_pipe g)%nat)
         (pipe_pool g).

(** The pipe [i] is in use: it was created and is not in the pool. *)
Definition held (i : nat) (g : LitServer) : Prop :=
  pool_wf g /\ (i < next_pipe g)%nat /\
  forall q, q ∈ pipe_pool g -> conn_pipe q.1 ≠ i.

(** [k] calls of [new_pipe] in a row: the server they leave. *)
Fixpoint acquire_all (k : nat) (g : LitServer) : LitServer :=
  match k with
  | O => g
  | Datatypes.S k' => acquire_all k' (new_pipe g).2
  end.

(** The identifiers [k] calls of [uuid4] draw. *)
Definition drawn (g : LitServer) (k : nat) : list uid :=
  map (fun i => uuid_source g (uuid_drawn g + i)%nat) (seq 0 k).

(** [int(s)] for a decimal string. *)
Definition parse_int (s : string) : option Z :=
  Z.of_int <$> NilZero.int_of_string s.

(** Workers that answer every queued request with an empty dictionary. *)
Definition textless_replies : Z -> shared -> shared := fun _ s =>
  (for_each (request_queue s)
            (fun u => suppress (fun _ => true)
                        (e ← buffer_pop u; send e.2 (PyDict [])))
            (set_request_queue [] s)).2.

(** Nothing queued, nothing stored, no pipe in use. *)
Definition empty_shared : shared :=
  {| request_queue := []; queue_closed := false; request_buffer := ∅;
     inbox := ∅; closed := ∅ |}.

(** A replica that has not run its setup, with nothing to do. *)
Definition idle_worker : worker model_state :=
  {| self := {| model_fn := None |}; wshared := empty_shared; log := [] |}.

(** A replica facing one queued identifier whose entry is gone. *)
Definition stale_worker : worker model_state :=
  {| self := {| model_fn := Some py_square |};
     wshared := set_request_queue [9%N] empty_shared; log := [] |}.

(** A replica whose only request was abandoned: the receiving end of the
    pipe is closed. *)
Definition abandoned_worker : worker model_state :=
  {| self := {| model_fn := Some py_square |};
     wshared :=
       {| request_queue := [7%N]; queue_closed := false;
          request_buffer := {[ 7%N := (PyDict [("input", PyFloat 4)], Conn 0 false) ]};
          inbox := ∅; closed := {[ Conn 0 true ]} |};
     log := [] |}.

(** A replica facing a request without the key the API reads, with a
    well-formed request queued behind it. *)
Definition malformed_worker : worker model_state :=
  {| self := {| model_fn := Some py_square |};
     wshared :=
       {| request_queue := [1%N; 2%N]; queue_closed := false;
          request_buffer :=
            {[ 1%N := (PyDict [("inputs", PyFloat 4)], Conn 0 false);
               2%N := (PyDict [("input", PyFloat 5)], Conn 1 false) ]};
          inbox := ∅; closed := ∅ |};
     log := [] |}.

(** A supported request that asks for no completion. *)
Definition no_completion_request : ChatCompletionRequest :=
  {| model := None; messages := [("user", "hello")]; n := 0;
     stream := None; stop := None;
     frequency_penalty := None; presence_penalty := None;
     max_tokens := None; top_p := Some 1%float |}.

(** One turn of a replica of the OpenAI example API while the gateway
    waits. *)
Definition openai_worker : Z -> shared -> shared := fun _ s =>
  wshared (single_loop OpenAILitAPI.api 1
             {| self := {| OpenAILitAPI.model_set := true;
                           OpenAILitAPI.printed_lines := [] |};
                wshared := s; log := [] |}).2.

(** The choice the OpenAI example API answers every request with. *)
Definition generated_choice : ChatCompletionResponseChoice :=
  {| index := 0;
     message := {| role := "assistant";
                   content := PyStr "This is a generated output" |};
     finish_reason := PyStr "stop" |}.

(** A supported request for one completion. *)
Definition single_request : ChatCompletionRequest :=
  {| model := Some "demo"; messages := [("user", "hello")]; n := 1;
     stream := None; stop := None;
     frequency_penalty := None; presence_penalty := None;
     max_tokens := None; top_p := Some 1%float |}.

(** ** Replicas and devices *)

Definition is_setup (e : event) : bool :=
  match e with CallSetup _ => true | _ => false end.

(** A computation of a replica that only appends to the record of calls, and
    no call of the setup stage. *)
Definition quiet {S A} (m : M (worker S) A) : Prop :=
  forall w, exists evs,
    log (m w).2 = log w ++ evs /\ Forall (fun e => is_setup e = false) evs.

(** A replica of the simple square API as its process starts: [self.model]
    is not set yet, and one request is queued. *)
Definition started_worker : worker model_state :=
  {| self := {| model_fn := None |}; wshared := table_demo; log := [] |}.

(** The device a replica gets for an entry of the [devices] argument: the
    identifier [family:index] of its index, or the identifiers of the indices
    it spans. *)
Definition device_of (accelerator : string) (d : device_index) : device :=
  match d with
  | Index i | Indices [i] => DevStr (identifier accelerator i)
  | Indices l => DevList (map (identifier accelerator) l)
  end.

(** The device list of the start-up: one logical device for the CPU, one
    device per index otherwise. *)
Definition device_list (accelerator : string) (devices : devices_arg) : list device :=
  if String.eqb accelerator "cpu" then [DevStr "cpu"]
  else match devices with
       | DeviceCount k => map (fun i => DevStr (identifier accelerator i)) (range k)
       | DeviceList l => map (device_of accelerator) l
       end.

(** * Properties *)

(** ** Running monadic code *)

Ltac unfold_monad :=
  unfold suppress in *;
  unfold mbind, mret, M_bind, M_ret, result_bind, result_ret, raise, gets,
    modify, try_except, zoom, lift_result in *.

(** Case analysis on the outcome of the computation that runs first. *)
Tactic Notation "case_run" ident(a) ident(s) ident(E) :=
  match goal with
  | |- context [match ?x with pair _ _ => _ end] =>
      let e := fresh "e" in destruct x as [[a|e] s] eqn:E
  end.

Lemma bind_Ok {St A B} (m : M St A) (f : A -> M St B) s a s' :
  m s = (Ok a, s') -> (m ≫= f) s = f a s'.
Proof. intros H. unfold_monad. by rewrite H. Qed.

Lemma bind_Raise {St A B} (m : M St A) (f : A -> M St B) s e s' :
  m s = (Raise e, s') -> (m ≫= f) s = (Raise e, s').
Proof. intros H. unfold_monad. by rewrite H. Qed.

(** ** The request table *)

Section RequestTable.
Implicit Types (s : shared) (u : uid) (e : pyval * Connection).

Lemma take_present s u e :
  request_buffer s !! u = Some e ->
  take u s = (Ok (Some e), set_request_buffer (delete u (request_buffer s)) s).
Proof. intros H. unfold take, buffer_pop. unfold_monad. by rewrite H. Qed.

Lemma take_absent s u :
  request_buffer s !! u = None -> take u s = (Ok None, s).
Proof. intros H. unfold take, buffer_pop. unfold_monad. by rewrite H. Qed.

Lemma takes_absent k s u :
  request_buffer s !! u = None -> takes k u s = (Ok (replicate k None), s).
Proof.
  intros H. induction k as [|k IH]; [done|].
  cbn [takes replicate].
  rewrite (bind_Ok _ _ _ _ _ (take_absent s u H)).
  by rewrite (bind_Ok _ _ _ _ _ IH).
Qed.

(** [cleanup] is a take whose result is dropped. *)
Lemma cleanup_take s u : cleanup u s = (Ok tt, (take u s).2).
Proof.
  unfold cleanup, take, buffer_pop. unfold_monad.
  by destruct (request_buffer s !! u).
Qed.

Lemma cleanup_absent s u :
  request_buffer s !! u = None -> cleanup u s = (Ok tt, s).
Proof. intros H. by rewrite cleanup_take, take_absent. Qed.

Lemma cleanup_buffer s u :
  request_buffer (cleanup u s).2 = delete u (request_buffer s).
Proof.
  rewrite cleanup_take. unfold take, buffer_pop. unfold_monad.
  destruct (request_buffer s !! u) eqn:E; simpl; [done|].
  symmetry. by apply delete_id.
Qed.

(** Once the identifier is absent, no caller gets or changes anything. *)
Lemma race_absent cs s u :
  request_buffer s !! u = None ->
  race cs u s = (Ok (replicate (consumers cs) None), s).
Proof.
  intros H. induction cs as [|[] cs IH]; [done| |]; cbn [race].
  - rewrite (bind_Ok _ _ _ _ _ (take_absent s u H)).
    by rewrite (bind_Ok _ _ _ _ _ IH).
  - by rewrite (bind_Ok _ _ _ _ _ (cleanup_absent s u H)).
Qed.
End RequestTable.

(** C1. For an identifier present in the request table, the first caller
    wins, whether it is a worker's take or [cleanup]: a take gets the stored
    (payload, sender) entry, [cleanup] pops and drops it, and either way the
    entry is out of the table and nothing else changed.  Every later caller,
    however many takes and cleanups follow and in whatever order, gets
    nothing and changes nothing: no caller ever gets a second copy. *)
Theorem take_idempotent (s : shared) (u : uid) (e : pyval * Connection) (k : nat) :
  request_buffer s !! u = Some e ->
  exists s1,
    take u s = (Ok (Some e), s1) /\
    request_buffer s1 !! u = None /\
    takes k u s1 = (Ok (replicate k None), s1) /\
    cleanup u s1 = (Ok tt, s1) /\
    takes (Datatypes.S k) u s = (Ok (Some e :: replicate k None), s1) /\
    s1 = set_request_buffer (delete u (request_buffer s)) s /\
    cleanup u s = (Ok tt, s1) /\
    (cleanup u ≫= fun _ => takes k u) s = (Ok (replicate k None), s1) /\
    forall cs : list caller,
      race cs u s1 = (Ok (replicate (consumers cs) None), s1) /\
      race (Consumer :: cs) u s = (Ok (Some e :: replicate (consumers cs) None), s1) /\
      race (Cleaner :: cs) u s = (Ok (replicate (consumers cs) None), s1).
Proof.
  intros H.
  set (s1 := set_request_buffer (delete u (request_buffer s)) s).
  assert (Hgone : request_buffer s1 !! u = None) by apply lookup_delete_eq.
  assert (Hclean : cleanup u s = (Ok tt, s1))
    by (by rewrite cleanup_take, (take_present s u e H)).
  exists s1. split; [by apply take_present|]. split; [done|].
  split; [by apply takes_absent|]. split; [by apply cleanup_absent|].
  split.
  { cbn [takes].
    rewrite (bind_Ok _ _ _ _ _ (take_present s u e H)).
    by rewrite (bind_Ok _ _ _ _ _ (takes_absent k s1 u Hgone)). }
  split; [done|]. split; [done|]. split.
  { rewrite (bind_Ok _ _ _ _ _ Hclean). by apply takes_absent. }
  intros cs. split; [by apply race_absent|]. split.
  - cbn [race].
    rewrite (bind_Ok _ _ _ _ _ (take_present s u e H)).
    by rewrite (bind_Ok _ _ _ _ _ (race_absent cs s1 u Hgone)).
  - cbn [race]. rewrite (bind_Ok _ _ _ _ _ Hclean). by apply race_absent.
Qed.

Lemma take_idempotent_witness :
  exists s1,
    take 7%N table_demo
      = (Ok (Some (PyDict [("input", PyFloat 4)], Conn 0 false)), s1) /\
    request_buffer s1 !! 7%N = None /\
    takes 3 7%N s1 = (Ok [None; None; None], s1) /\
    cleanup 7%N s1 = (Ok tt, s1) /\
    takes 4 7%N table_demo
      = (Ok [Some (PyDict [("input", PyFloat 4)], Conn 0 false); None; None; None], s1) /\
    s1 = set_request_buffer (delete 7%N (request_buffer table_demo)) table_demo /\
    cleanup 7%N table_demo = (Ok tt, s1) /\
    (cleanup 7%N ≫= fun _ => takes 3 7%N) table_demo = (Ok [None; None; None], s1) /\
    forall cs : list caller,
      race cs 7%N s1 = (Ok (replicate (consumers cs) None), s1) /\
      race (Consumer :: cs) 7%N table_demo
        = (Ok (Some (PyDict [("input", PyFloat 4)], Conn 0 false)
               :: replicate (consumers cs) None), s1) /\
      race (Cleaner :: cs) 7%N table_demo = (Ok (replicate (consumers cs) None), s1).
Proof.
  apply (take_idempotent table_demo 7%N
           (PyDict [("input", PyFloat 4)], Conn 0 false) 3).
  reflexivity.
Defined.

(** ** The worker loops *)

Lemma peer_inj (a b : Connection) : peer a = peer b -> a = b.
Proof. destruct a as [p [|]], b as [p1 [|]]; unfold peer; cbn; congruence. Qed.

Section WorkerSteps.
Context {S : Type} (lit_api : LitAPI S).
Implicit Types (w : worker S).

Lemma fetch_taken w u q x_enc pipe_s :
  queue_closed (wshared w) = false ->
  request_queue (wshared w) = u :: q ->
  request_buffer (wshared w) !! u = Some (x_enc, pipe_s) ->
  fetch w =
    (Ok (Taken x_enc pipe_s),
     {| self := self w;
        wshared := set_request_buffer (delete u (request_buffer (wshared w)))
                     (set_request_queue q (wshared w));
        log := log w |}).
Proof.
  intros Hc Hq Hb. unfold fetch, on_shared, queue_get, buffer_pop.
  unfold_monad. rewrite Hc, Hq. simpl. by rewrite Hb.
Qed.

Lemma fetch_idle w :
  queue_closed (wshared w) = false ->
  request_queue (wshared w) = [] ->
  fetch w = (Ok Idle, w).
Proof.
  intros Hc Hq. unfold fetch, on_shared, queue_get.
  unfold_monad. rewrite Hc, Hq. simpl. by destruct w.
Qed.

Lemma send_reply_open w pipe_s v :
  pipe_s ∉ closed (wshared w) ->
  peer pipe_s ∉ closed (wshared w) ->
  send_reply pipe_s v w =
    (Ok tt,
     {| self := self w;
        wshared := set_inbox (<[peer pipe_s := pending (peer pipe_s) (wshared w) ++ [v]]>
                                (inbox (wshared w))) (wshared w);
        log := log w ++ [Sent pipe_s v] |}).
Proof.
  intros H1 H2. unfold send_reply, on_shared, record, send.
  unfold_monad. by rewrite !decide_False.
Qed.

(** A send to a receiver that is gone is swallowed and leaves no trace. *)
Lemma send_reply_broken w pipe_s v :
  pipe_s ∉ closed (wshared w) ->
  peer pipe_s ∈ closed (wshared w) ->
  send_reply pipe_s v w = (Ok tt, w).
Proof.
  intros H1 H2. unfold send_reply, on_shared, record, send.
  unfold_monad. rewrite decide_False, decide_True by done. simpl. by destruct w.
Qed.
End WorkerSteps.

(** C3. One turn of the single-request loop of a replica that runs the simple
    square API and has run its setup: with the request [u] at the head of the
    queue and the payload [{"input": 4.0}] stored for it, the turn calls
    decode on the payload, predict on [4.0] and encode on [16.0], in this
    order, and its only send puts [{"output": 16.0}] on the request's sender;
    the request leaves the queue and the table. *)
Theorem single_loop_square (w : worker model_state) (u : uid) (q : list uid)
    (pipe_s : Connection) :
  model_fn (self w) = Some py_square ->
  queue_closed (wshared w) = false ->
  request_queue (wshared w) = u :: q ->
  request_buffer (wshared w) !! u = Some (PyDict [("input", PyFloat 4)], pipe_s) ->
  pipe_s ∉ closed (wshared w) ->
  peer pipe_s ∉ closed (wshared w) ->
  exists w',
    single_loop SimpleLitAPI.api 1 w = (Ok tt, w') /\
    self w' = self w /\
    log w' = log w ++ [CallDecode (PyDict [("input", PyFloat 4)]);
                       CallPredict (PyFloat 4);
                       CallEncode (PyFloat 16);
                       Sent pipe_s (PyDict [("output", PyFloat 16)])] /\
    pending (peer pipe_s) (wshared w')
      = pending (peer pipe_s) (wshared w) ++ [PyDict [("output", PyFloat 16)]] /\
    (forall c, c ≠ peer pipe_s -> pending c (wshared w') = pending c (wshared w)) /\
    request_queue (wshared w') = q /\
    request_buffer (wshared w') = delete u (request_buffer (wshared w)).
Proof.
  intros Hm Hc Hq Hb Hs Hp.
  eexists. split.
  - cbn [single_loop]. unfold single_loop_body.
    erewrite bind_Ok; [|erewrite bind_Ok; [|by eapply fetch_taken]].
    2:{ unfold call_decode, call_predict, call_encode, record, on_self.
        cbn. unfold SimpleLitAPI.predict, call_model. unfold_monad. cbn.
        rewrite Hm. cbn.
        rewrite send_reply_open by done. reflexivity. }
    reflexivity.
  - cbn. repeat split; try done.
    + by rewrite <- !app_assoc.
    + unfold pending. cbn. by rewrite lookup_insert_eq.
    + intros c Hne. unfold pending. cbn. by rewrite lookup_insert_ne.
Qed.

Lemma call_decode_batched (w : worker model_state) (f : float) :
  call_decode SimpleBatchedAPI.api (PyDict [("input", PyFloat f)]) w =
    (Ok (PyArray (A0 f)),
     {| self := self w; wshared := wshared w;
        log := log w ++ [CallDecode (PyDict [("input", PyFloat f)])] |}).
Proof. reflexivity. Qed.

Lemma call_batch_pair (w : worker model_state) (a b : float) :
  call_batch SimpleBatchedAPI.api [PyArray (A0 a); PyArray (A0 b)] w =
    (Ok (PyArray (AN [A0 a; A0 b])),
     {| self := self w; wshared := wshared w;
        log := log w ++ [CallBatch [PyArray (A0 a); PyArray (A0 b)]] |}).
Proof. reflexivity. Qed.

Lemma call_predict_array (w : worker model_state) (a : ndarray) :
  model_fn (self w) = Some py_square ->
  call_predict SimpleBatchedAPI.api (PyArray a) w =
    (Ok (PyArray (array_square a)),
     {| self := self w; wshared := wshared w;
        log := log w ++ [CallPredict (PyArray a)] |}).
Proof.
  intros H. unfold call_predict, record, on_self. unfold_monad. cbn.
  unfold SimpleBatchedAPI.predict, call_model. unfold_monad. by rewrite H.
Qed.

Lemma call_unbatch_stack (w : worker model_state) (l : list ndarray) :
  call_unbatch SimpleBatchedAPI.api (PyArray (AN l)) w =
    (Ok (map PyArray l),
     {| self := self w; wshared := wshared w;
        log := log w ++ [CallUnbatch (PyArray (AN l))] |}).
Proof. reflexivity. Qed.

Lemma call_encode_batched (w : worker model_state) (y : pyval) :
  call_encode SimpleBatchedAPI.api y w =
    (Ok (PyDict [("output", y)]),
     {| self := self w; wshared := wshared w;
        log := log w ++ [CallEncode y] |}).
Proof. reflexivity. Qed.

(** C4. One turn of the batched loop with [max_batch_size = 2] of a replica
    that runs the batched square API: with the requests [u1] and [u2] at the
    head of the queue, carrying the inputs [4.0] and [5.0], both are decoded
    and collected in this order, batch and predict are each called once, on
    the whole batch, the result is unbatched into [16.0] and [25.0], and each
    output is encoded on its own and sent on the sender of the request it
    came from, the first request first. *)
Theorem batched_loop_square (w : worker model_state) (u1 u2 : uid)
    (q : list uid) (s1 s2 : Connection) :
  model_fn (self w) = Some py_square ->
  queue_closed (wshared w) = false ->
  request_queue (wshared w) = u1 :: u2 :: q ->
  u1 ≠ u2 ->
  request_buffer (wshared w) !! u1 = Some (PyDict [("input", PyFloat 4)], s1) ->
  request_buffer (wshared w) !! u2 = Some (PyDict [("input", PyFloat 5)], s2) ->
  s1 ∉ closed (wshared w) -> peer s1 ∉ closed (wshared w) ->
  s2 ∉ closed (wshared w) -> peer s2 ∉ closed (wshared w) ->
  exists w',
    batched_loop SimpleBatchedAPI.api 1 2 w = (Ok tt, w') /\
    log w' = log w ++ [CallDecode (PyDict [("input", PyFloat 4)]);
                       CallDecode (PyDict [("input", PyFloat 5)]);
                       CallBatch [PyArray (A0 4); PyArray (A0 5)];
                       CallPredict (PyArray (AN [A0 4; A0 5]));
                       CallUnbatch (PyArray (AN [A0 16; A0 25]));
                       CallEncode (PyArray (A0 16));
                       Sent s1 (square_reply 16);
                       CallEncode (PyArray (A0 25));
                       Sent s2 (square_reply 25)] /\
    (s1 ≠ s2 ->
       pending (peer s1) (wshared w')
         = pending (peer s1) (wshared w) ++ [square_reply 16] /\
       pending (peer s2) (wshared w')
         = pending (peer s2) (wshared w) ++ [square_reply 25]) /\
    (s1 = s2 ->
       pending (peer s1) (wshared w')
         = pending (peer s1) (wshared w) ++ [square_reply 16; square_reply 25]) /\
    request_queue (wshared w') = q /\
    request_buffer (wshared w') = delete u2 (delete u1 (request_buffer (wshared w))).
Proof.
  intros Hm Hc Hq Hne Hb1 Hb2 Hs1 Hp1 Hs2 Hp2.
  eexists. split.
  - cbn [batched_loop]. unfold batched_loop_body.
    change (Z.to_nat 2) with 2%nat. cbn [collect].
    erewrite bind_Ok; [reflexivity|].
    erewrite bind_Ok.
    2:{ erewrite bind_Ok; [|by eapply fetch_taken]. cbv beta iota.
        erewrite bind_Ok; [|apply call_decode_batched].
        erewrite bind_Ok.
        2:{ eapply fetch_taken; cbn; [done|reflexivity|].
            by rewrite lookup_delete_ne. }
        cbv beta iota.
        erewrite bind_Ok; [|apply call_decode_batched].
        reflexivity. }
    cbn [app self wshared log]. cbv beta iota.
    erewrite bind_Ok; [|apply call_batch_pair].
    erewrite bind_Ok; [|by apply call_predict_array].
    erewrite bind_Ok; [|apply call_unbatch_stack].
    cbn [array_square map zip zip_with for_each].
    erewrite bind_Ok.
    2:{ erewrite bind_Ok; [|apply call_encode_batched].
        by apply send_reply_open. }
    erewrite bind_Ok.
    2:{ erewrite bind_Ok; [|apply call_encode_batched].
        by apply send_reply_open. }
    reflexivity.
  - cbn. split; [by rewrite <- !app_assoc|].
    unfold pending. cbn.
    split; [|split; [|done]].
    + intros Hd. assert (peer s1 ≠ peer s2) by (intros E; by apply Hd, peer_inj).
      rewrite lookup_insert_ne by done.
      rewrite lookup_insert_eq. rewrite lookup_insert_eq.
      cbn. by rewrite lookup_insert_ne.
    + intros <-. rewrite !lookup_insert_eq. cbn. by rewrite <- app_assoc.
Qed.

Lemma single_loop_square_witness :
  exists w',
    single_loop SimpleLitAPI.api 1 single_demo = (Ok tt, w') /\
    self w' = self single_demo /\
    log w' = log single_demo ++
               [CallDecode (PyDict [("input", PyFloat 4)]);
                CallPredict (PyFloat 4);
                CallEncode (PyFloat 16);
                Sent (Conn 0 false) (PyDict [("output", PyFloat 16)])] /\
    pending (peer (Conn 0 false)) (wshared w')
      = pending (peer (Conn 0 false)) (wshared single_demo)
          ++ [PyDict [("output", PyFloat 16)]] /\
    (forall c, c ≠ peer (Conn 0 false) ->
               pending c (wshared w') = pending c (wshared single_demo)) /\
    request_queue (wshared w') = [] /\
    request_buffer (wshared w') = delete 7%N (request_buffer (wshared single_demo)).
Proof.
  apply (single_loop_square single_demo 7%N [] (Conn 0 false));
    try reflexivity; apply not_elem_of_empty.
Defined.

Lemma batched_loop_square_witness :
  exists w',
    batched_loop SimpleBatchedAPI.api 1 2 batched_demo = (Ok tt, w') /\
    log w' = log batched_demo ++
               [CallDecode (PyDict [("input", PyFloat 4)]);
                CallDecode (PyDict [("input", PyFloat 5)]);
                CallBatch [PyArray (A0 4); PyArray (A0 5)];
                CallPredict (PyArray (AN [A0 4; A0 5]));
                CallUnbatch (PyArray (AN [A0 16; A0 25]));
                CallEncode (PyArray (A0 16));
                Sent (Conn 0 false) (square_reply 16);
                CallEncode (PyArray (A0 25));
                Sent (Conn 1 false) (square_reply 25)] /\
    (Conn 0 false ≠ Conn 1 false ->
       pending (peer (Conn 0 false)) (wshared w')
         = pending (peer (Conn 0 false)) (wshared batched_demo) ++ [square_reply 16] /\
       pending (peer (Conn 1 false)) (wshared w')
         = pending (peer (Conn 1 false)) (wshared batched_demo) ++ [square_reply 25]) /\
    (Conn 0 false = Conn 1 false ->
       pending (peer (Conn 0 false)) (wshared w')
         = pending (peer (Conn 0 false)) (wshared batched_demo)
             ++ [square_reply 16; square_reply 25]) /\
    request_queue (wshared w') = [] /\
    request_buffer (wshared w')
      = delete 2%N (delete 1%N (request_buffer (wshared batched_demo))).
Proof.
  apply (batched_loop_square batched_demo 1%N 2%N [] (Conn 0 false) (Conn 1 false));
    try reflexivity; try apply not_elem_of_empty.
  discriminate.
Defined.

(** ** The gateway: [/predict] *)

Section Predict.
Variable env : Z -> shared -> shared.
Implicit Types (g : LitServer).

(** [predict] is [enqueue] followed by the wait for the reply. *)
Lemma predict_enqueue request_data g :
  Routes.predict env request_data g =
    match Routes.enqueue request_data g with
    | (Ok (_, pipe_r), g1) =>
        match on_app (Routes.get_from_pipe env pipe_r (app_timeout g1)) g1 with
        | (Ok (PyHTTPException c d), g2) => (Raise (HTTPException c d), g2)
        | r => r
        end
    | (Raise e, g1) => (Raise e, g1)
    end.
Proof.
  unfold Routes.predict, Routes.enqueue. unfold_monad.
  destruct (uuid4 g) as [[u|e] g0]; [|done].
  destruct (new_pipe g0) as [[[pipe_s pipe_r]|e] g1]; [|done].
  destruct (on_app (buffer_setitem u (request_data, pipe_s)) g1) as [[[]|e] g2];
    [|done].
  destruct (on_app (queue_put u) g2) as [[[]|e] g3]; [|done].
  destruct (add_task (CleanupTask u) g3) as [[[]|e] g4]; [|done].
  destruct (on_app _ g4) as [[[]|e] g5]; done.
Qed.

Lemma on_app_Ok {A} (m : M shared A) g :
  on_app m g = ((m (app_shared g)).1, set_app_shared (m (app_shared g)).2 g).
Proof. unfold on_app. unfold_monad. by destruct (m (app_shared g)). Qed.

(** What [enqueue] leaves behind when it succeeds. *)
Lemma enqueue_Ok request_data g u pipe_r g1 :
  Routes.enqueue request_data g = (Ok (u, pipe_r), g1) ->
  u = uuid_source g (uuid_drawn g) /\
  background_tasks g1 = background_tasks g ++ [CleanupTask u] /\
  request_queue (app_shared g1) = request_queue (app_shared g) ++ [u] /\
  exists pipe_s,
    request_buffer (app_shared g1) = <[u := (request_data, pipe_s)]>
                                       (request_buffer (app_shared g)).
Proof.
  unfold Routes.enqueue, uuid4, new_pipe, pool_pop, Pipe, add_task, on_app,
    buffer_setitem, queue_put.
  unfold_monad. cbn.
  destruct (rev (pipe_pool g)) as [|[ps pr] r]; cbn;
    destruct (queue_closed (app_shared g)); cbn; intros [= <- <- <-]; cbn;
    eauto.
Qed.

(** [for_each] over cleanup tasks never raises and only deletes keys. *)
Lemma run_tasks_spec (ts : list task) (s : shared) :
  exists s', for_each ts run_task s = (Ok tt, s') /\
    request_buffer s' = foldl (fun b t => match t with CleanupTask u => delete u b end)
                              (request_buffer s) ts /\
    ((forall u, CleanupTask u ∈ ts -> request_buffer s !! u = None) -> s' = s).
Proof.
  revert s. induction ts as [|[u] ts IH]; intros s.
  - exists s. by repeat split.
  - cbn [for_each foldl].
    destruct (IH (cleanup u s).2) as (s' & Hrun & Hbuf & Hid).
    exists s'. split; [|split].
    + erewrite bind_Ok; [exact Hrun|]. cbn [run_task].
      by rewrite cleanup_take.
    + by rewrite Hbuf, cleanup_buffer.
    + intros Habs.
      assert (cleanup u s = (Ok tt, s)) as Hc.
      { apply cleanup_absent, Habs. by left. }
      rewrite Hc in Hid. apply Hid. intros u' Hin. apply Habs. by right.
Qed.
End Predict.

(** C2. A [/predict] request whose reply is not readable when the wait of
    [timeout] seconds ends.  The handler raises the 504 "Request timed out"
    failure instead of returning a payload, and the cleanup of the request's
    identifier was added to the request's tasks before the wait.  But the
    handler raised, so the framework drops the tasks: the cleanup never runs,
    the table at the end of the request is the table at the end of the wait,
    and the entry of a request that no worker took is still in it.  Only a
    run of the tasks, which this path never gets, would have removed it. *)
Theorem predict_timeout (env : Z -> shared -> shared) (request_data : pyval)
    (g g1 : LitServer) (u : uid) (pipe_r : Connection) :
  background_tasks g = [] ->
  Routes.enqueue request_data g = (Ok (u, pipe_r), g1) ->
  poll pipe_r (env (app_timeout g1) (app_shared g1)) = false ->
  exists g2,
    Routes.predict env request_data g
      = (Raise (HTTPException 504 "Request timed out"), g2) /\
    app_shared g2 = env (app_timeout g1) (app_shared g1) /\
    background_tasks g2 = [CleanupTask u] /\
    serve (Routes.predict env request_data) g
      = (Raise (HTTPException 504 "Request timed out"), set_background_tasks [] g2) /\
    request_buffer (app_shared (serve (Routes.predict env request_data) g).2) !! u
      = request_buffer (env (app_timeout g1) (app_shared g1)) !! u /\
    (request_buffer (env (app_timeout g1) (app_shared g1))
       = request_buffer (app_shared g1) ->
     exists pipe_s,
       request_buffer (app_shared (serve (Routes.predict env request_data) g).2) !! u
         = Some (request_data, pipe_s)) /\
    exists g3,
      run_background_tasks g2 = (Ok tt, g3) /\
      request_buffer (app_shared g3) = delete u (request_buffer (app_shared g2)) /\
      request_buffer (app_shared g3) !! u = None /\
      (request_buffer (app_shared g2) !! u = None -> app_shared g3 = app_shared g2) /\
      take u (app_shared g3) = (Ok None, app_shared g3).
Proof.
  intros Hfresh Henq Hpoll.
  destruct (enqueue_Ok _ _ _ _ _ Henq) as (_ & Htasks & _ & pipe_s & Hbuf1).
  rewrite Hfresh in Htasks. cbn in Htasks.
  set (g2 := set_app_shared (env (app_timeout g1) (app_shared g1)) g1).
  assert (Routes.predict env request_data g
          = (Raise (HTTPException 504 "Request timed out"), g2)) as Hpredict.
  { rewrite predict_enqueue, Henq.
    unfold on_app, Routes.get_from_pipe. unfold_monad. by rewrite Hpoll. }
  assert (serve (Routes.predict env request_data) g
          = (Raise (HTTPException 504 "Request timed out"),
             set_background_tasks [] g2)) as Hserve
    by (unfold serve; by rewrite Hpredict).
  exists g2.
  split; [done|]. split; [done|]. split; [done|]. split; [done|].
  split; [by rewrite Hserve|]. split.
  { intros Hkept. exists pipe_s. rewrite Hserve. cbn.
    rewrite Hkept, Hbuf1. apply lookup_insert_eq. }
  unfold run_background_tasks. cbn [background_tasks set_app_shared g2].
  rewrite Htasks.
  destruct (run_tasks_spec [CleanupTask u] (env (app_timeout g1) (app_shared g1)))
    as (s' & Hrun & Hbuf & Hid).
  eexists. split.
  { unfold on_app. unfold_monad. cbn. cbn in Hrun. by rewrite Hrun. }
  cbn. cbn in Hbuf.
  assert (request_buffer s' !! u = None) as Hgone
    by (rewrite Hbuf; apply lookup_delete_eq).
  repeat split; try done.
  + intros Habs. apply Hid. intros u' Hin.
    apply list_elem_of_singleton in Hin. by injection Hin as ->.
  + by apply take_absent.
Qed.

Lemma predict_timeout_witness :
  let g1 := (Routes.enqueue request_demo server_demo).2 in
  request_buffer (app_shared (serve (Routes.predict idle request_demo) server_demo).2)
    !! 0%N = Some (request_demo, Conn 99 false) /\
  exists g2,
    Routes.predict idle request_demo server_demo
      = (Raise (HTTPException 504 "Request timed out"), g2) /\
    app_shared g2 = idle (app_timeout g1) (app_shared g1) /\
    background_tasks g2 = [CleanupTask 0%N] /\
    serve (Routes.predict idle request_demo) server_demo
      = (Raise (HTTPException 504 "Request timed out"), set_background_tasks [] g2) /\
    request_buffer (app_shared (serve (Routes.predict idle request_demo) server_demo).2)
      !! 0%N
      = request_buffer (idle (app_timeout g1) (app_shared g1)) !! 0%N /\
    (request_buffer (idle (app_timeout g1) (app_shared g1))
       = request_buffer (app_shared g1) ->
     exists pipe_s,
       request_buffer
         (app_shared (serve (Routes.predict idle request_demo) server_demo).2) !! 0%N
         = Some (request_demo, pipe_s)) /\
    exists g3,
      run_background_tasks g2 = (Ok tt, g3) /\
      request_buffer (app_shared g3) = delete 0%N (request_buffer (app_shared g2)) /\
      request_buffer (app_shared g3) !! 0%N = None /\
      (request_buffer (app_shared g2) !! 0%N = None -> app_shared g3 = app_shared g2) /\
      take 0%N (app_shared g3) = (Ok None, app_shared g3).
Proof.
  split; [vm_compute; reflexivity|].
  apply (predict_timeout idle request_demo server_demo
           (Routes.enqueue request_demo server_demo).2 0%N (Conn 99 true));
    vm_compute; reflexivity.
Defined.

(** ** The channel pool *)

Lemma pool_pop_removelast (g : LitServer) :
  pipe_pool (pool_pop g).2 = removelast (pipe_pool g).
Proof.
  unfold pool_pop. destruct (rev (pipe_pool g)) as [|p r] eqn:E; cbn.
  - apply (f_equal (@rev _)) in E. rewrite rev_involutive in E. by rewrite E.
  - apply (f_equal (@rev _)) in E. rewrite rev_involutive in E. cbn in E.
    rewrite E. by rewrite removelast_last.
Qed.

Lemma new_pipe_pool (g : LitServer) :
  pipe_pool (new_pipe g).2 = removelast (pipe_pool g).
Proof.
  rewrite <- pool_pop_removelast. unfold new_pipe, pool_pop. unfold_monad.
  by destruct (rev (pipe_pool g)).
Qed.

(** [dispose_pipe] leaves the pool as it is, whatever its size. *)
Lemma dispose_pipe_pool (g : LitServer) (pipe_s pipe_r : Connection) :
  (dispose_pipe pipe_s pipe_r g).2 = g.
Proof. unfold dispose_pipe, pool_append_2. unfold_monad. by case_bool_decide. Qed.

(** Up to and including a pool that is full, [dispose_pipe] reaches the
    [append] call and raises. *)
Lemma dispose_pipe_raises (g : LitServer) (pipe_s pipe_r : Connection) :
  Z.of_nat (length (pipe_pool g)) <= max_pool_size g ->
  dispose_pipe pipe_s pipe_r g = (Raise TypeError, g).
Proof.
  intros H. unfold dispose_pipe, pool_append_2. unfold_monad.
  rewrite bool_decide_eq_false_2; [done|lia].
Qed.

(** Whatever is acquired and released, the pool never grows. *)
Lemma pool_never_grows (ops : list pool_op) (g : LitServer) :
  (length (pipe_pool (foldl pool_step g ops)) <= length (pipe_pool g))%nat.
Proof.
  revert g. induction ops as [|op ops IH]; intros g; cbn [foldl]; [done|].
  etransitivity; [apply IH|]. destruct op as [|pipe_s pipe_r]; cbn [pool_step].
  - rewrite new_pipe_pool. destruct (pipe_pool g) as [|p l] using rev_ind; [done|].
    rewrite removelast_last, length_app. lia.
  - by rewrite dispose_pipe_pool.
Qed.

(** C7. Releasing a pair into the initial pool, which holds 100 pairs with a
    maximum of 1000: the pair is not added; the call raises [TypeError] and
    the pool still holds 100 pairs. *)
Theorem dispose_pipe_initial_pool :
  length (pipe_pool server_demo) = 100%nat /\
  max_pool_size server_demo = 1000 /\
  dispose_pipe (Conn 100 false) (Conn 100 true) server_demo
    = (Raise TypeError, server_demo).
Proof. repeat split. Qed.

(** The pool after [predict], however the request ends: the pair taken on
    arrival is gone from it and nothing is put back. *)
Lemma predict_pool (env : Z -> shared -> shared) (request_data : pyval)
    (g : LitServer) :
  pipe_pool (Routes.predict env request_data g).2 = removelast (pipe_pool g).
Proof.
  transitivity (pipe_pool (new_pipe (uuid4 g).2).2); [|by rewrite new_pipe_pool].
  unfold Routes.predict. unfold_monad. cbn [uuid4 snd].
  destruct (new_pipe _) as [[[pipe_s pipe_r]|e] g1]; [|done]. cbn [snd].
  rewrite ?on_app_Ok.
  destruct (buffer_setitem _ _ _) as [[[]|e] s1]; [|done]. cbn [fst snd].
  rewrite ?on_app_Ok.
  destruct (queue_put _ _) as [[[]|e] s2]; [|done]. cbn [fst snd].
  unfold add_task. unfold_monad. rewrite ?on_app_Ok.
  destruct (Routes.get_from_pipe _ _ _ _) as [[[]|e] s3]; done.
Qed.

Lemma run_background_tasks_pool (g : LitServer) :
  pipe_pool (run_background_tasks g).2 = pipe_pool g.
Proof. unfold run_background_tasks. by rewrite on_app_Ok. Qed.

(** C8. A [/predict] request on the initial server that is answered in time:
    the handler returns the payload, and the pair it took from the pool of
    100, [(Conn 99 false, Conn 99 true)], is not given back: the pool holds 99
    pairs, none of them that pair, also after the deferred cleanup has run. *)
Theorem predict_keeps_pair :
  fst (Routes.predict square_worker request_demo server_demo)
    = Ok (PyDict [("output", PyFloat 16)]) /\
  length (pipe_pool server_demo) = 100%nat /\
  last (pipe_pool server_demo) = Some (Conn 99 false, Conn 99 true) /\
  length (pipe_pool (snd (Routes.predict square_worker request_demo server_demo)))
    = 99%nat /\
  ((Conn 99 false, Conn 99 true)
     ∉ pipe_pool (snd (Routes.predict square_worker request_demo server_demo))) /\
  pipe_pool (snd (run_background_tasks
                    (snd (Routes.predict square_worker request_demo server_demo))))
    = pipe_pool (snd (Routes.predict square_worker request_demo server_demo)).
Proof.
  split; [by vm_compute|]. split; [done|]. split; [done|].
  rewrite run_background_tasks_pool, predict_pool.
  split; [done|]. split; [|done].
  apply (bool_decide_unpack _). by vm_compute.
Qed.

(** ** The gateway: [/v1/chat/completions] *)

Lemma truthy_nonzero (o : option float) : truthy o = true <-> nonzero o.
Proof.
  unfold truthy, nonzero. destruct o as [f|]; split.
  - intros H. exists f. split; [done|]. by apply negb_true_iff.
  - intros (f' & [= <-] & H). by apply negb_true_iff.
  - done.
  - intros (f' & [=] & _).
Qed.

Lemma differs_from_one_not_one (o : option float) :
  differs_from_one o = true <-> not_one o.
Proof.
  unfold differs_from_one, not_one. destruct o as [f|]; split.
  - intros H f' [= <-]. by apply negb_true_iff.
  - intros H. apply negb_true_iff. by apply H.
  - done.
  - done.
Qed.

Lemma check_parameters_unsupported (request : ChatCompletionRequest) :
  unsupported request ->
  exists detail, Routes.check_parameters request = Raise (HTTPException 400 detail).
Proof.
  intros H. unfold Routes.check_parameters.
  case_bool_decide as Hstream; [eauto|].
  case_bool_decide as Hstop; [eauto|].
  destruct (truthy (frequency_penalty request)) eqn:Hf; [eauto|].
  destruct (truthy (presence_penalty request)) eqn:Hp; [eauto|].
  case_bool_decide as Hmax; [eauto|].
  destruct (differs_from_one (top_p request)) eqn:Ht; [eauto|].
  exfalso. destruct H as [H|[H|[H|[H|[H|H]]]]]; try done.
  - apply truthy_nonzero in H. congruence.
  - apply truthy_nonzero in H. congruence.
  - apply differs_from_one_not_one in H. congruence.
Qed.

Lemma check_parameters_supported (request : ChatCompletionRequest) :
  Routes.check_parameters request = Ok tt -> ~ unsupported request.
Proof.
  intros H Hu. destruct (check_parameters_unsupported _ Hu) as [d Hd]. congruence.
Qed.

(** C6. A chat-completion request that sets an unsupported parameter is
    rejected with a 400 error and the server is left exactly as it was: no
    identifier is drawn, nothing is put in the table or the queue, no pair
    leaves the pool, and no cleanup is scheduled. *)
Theorem chat_rejects_unsupported (env : Z -> shared -> shared)
    (request : ChatCompletionRequest) (g : LitServer) :
  unsupported request ->
  exists detail,
    Routes.chat env request g = (Raise (HTTPException 400 detail), g).
Proof.
  intros H. destruct (check_parameters_unsupported _ H) as [d Hd].
  exists d. unfold Routes.chat. unfold_monad. by rewrite Hd.
Qed.

Lemma chat_rejects_unsupported_witness :
  exists detail,
    Routes.chat idle top_p_request server_demo
      = (Raise (HTTPException 400 detail), server_demo).
Proof.
  apply (chat_rejects_unsupported idle top_p_request server_demo).
  do 5 right. intros f [= <-]. reflexivity.
Defined.

Lemma mapM_length {St A B} (f : A -> M St B) (l : list A) s r s' :
  mapM f l s = (Ok r, s') -> length r = length l.
Proof.
  revert s r s'. induction l as [|x l IH]; intros s r s'; cbn.
  - by intros [= <- <-].
  - unfold_monad. destruct (f x s) as [[y|e] s0]; [|done].
    destruct (mapM f l s0) as [[k|e] s1] eqn:E; [|done].
    intros [= <- <-]. cbn. f_equal. by eapply IH.
Qed.

Lemma fan_out_length (env : Z -> shared -> shared)
    (request : ChatCompletionRequest) (g g1 : LitServer) (responses : list pyval) :
  Routes.fan_out env request g = (Ok responses, g1) ->
  length responses = Z.to_nat (n request).
Proof.
  unfold Routes.fan_out. unfold_monad.
  case_run uids g0 E1; [|done].
  case_run pipes g2 E2; [|done].
  intros E3.
  apply mapM_length in E1, E2, E3. rewrite length_seq in E1. congruence.
Qed.

Lemma aggregate_one_arrived (i : nat) (r : pyval) (u : UsageInfo) :
  arrived r ->
  Routes.aggregate_one i r u = Ok (choice_of i r, usage_add u (usage_of r)).
Proof.
  intros (d & -> & [t Ht] & [v Hv]).
  unfold Routes.aggregate_one, choice_of, usage_of, text_of, reason_of.
  cbn. unfold_monad. rewrite Ht. cbn.
  unfold reported_usage in *.
  destruct (dict_get d "usage") as [x|] eqn:Hx; cbn.
  - by destruct (UsageInfo_parse_obj x).
  - done.
Qed.

Lemma aggregate_arrived (rs : list pyval) :
  Forall arrived rs ->
  forall i cs u,
    Routes.aggregate i rs cs u =
      Ok (cs ++ imap (fun j r => choice_of (i + j) r) rs,
          foldl usage_add u (map usage_of rs)).
Proof.
  induction 1 as [|r rs Hr _ IH]; intros i cs u; cbn [Routes.aggregate].
  - cbn. by rewrite app_nil_r.
  - unfold_monad. rewrite aggregate_one_arrived by done.
    rewrite IH. cbn [imap map foldl]. rewrite Nat.add_0_r, <- app_assoc. cbn.
    do 4 f_equal. apply imap_ext. intros j x _. cbn. f_equal. lia.
Qed.

Lemma foldl_usage_add (us : list UsageInfo) (u : UsageInfo) :
  prompt (foldl usage_add u us) = prompt u + sum_list (map prompt us) /\
  completion (foldl usage_add u us) = completion u + sum_list (map completion us) /\
  total (foldl usage_add u us) = total u + sum_list (map total us).
Proof.
  unfold sum_list. revert u. induction us as [|x us IH]; intros u;
    cbn [foldl map foldr].
  - lia.
  - destruct (IH (usage_add u x)) as (-> & -> & ->). unfold usage_add.
    cbn [prompt completion total]. lia.
Qed.

(** C5. A fan-out whose sub-responses all arrived: the handler returns a
    response with one choice per requested completion; the [i]-th choice has
    index [i], role "assistant", the text of the [i]-th sub-response as
    content, and its finish reason, "stop" when it has none; the usage starts
    from zero and adds up, counter by counter, what the sub-responses report,
    a sub-response without usage counting as zero. *)
Theorem chat_aggregates (env : Z -> shared -> shared)
    (request : ChatCompletionRequest) (g g1 : LitServer) (responses : list pyval) :
  Routes.check_parameters request = Ok tt ->
  Routes.fan_out env request g = (Ok responses, g1) ->
  Forall arrived responses ->
  exists resp,
    Routes.chat env request g = (Ok resp, g1) /\
    length responses = Z.to_nat (n request) /\
    length (choices resp) = Z.to_nat (n request) /\
    (forall i r, responses !! i = Some r -> choices resp !! i = Some (choice_of i r)) /\
    usage resp = foldl usage_add UsageInfo_default (map usage_of responses) /\
    prompt (usage resp) = sum_list (map (fun r => prompt (usage_of r)) responses) /\
    completion (usage resp)
      = sum_list (map (fun r => completion (usage_of r)) responses) /\
    total (usage resp) = sum_list (map (fun r => total (usage_of r)) responses).
Proof.
  intros Hcheck Hfan Harr.
  pose proof (fan_out_length _ _ _ _ _ Hfan) as Hlen.
  eexists. split.
  { unfold Routes.chat, Routes.respond. unfold_monad.
    rewrite Hcheck, Hfan, aggregate_arrived by done. reflexivity. }
  cbn [choices usage app].
  split; [done|]. split; [by rewrite length_imap|].
  split; [|split; [done|]].
  - intros i r Hi. rewrite list_lookup_imap, Hi. done.
  - destruct (foldl_usage_add (map usage_of responses) UsageInfo_default)
      as (-> & -> & ->).
    rewrite !map_map. done.
Qed.

Lemma chat_aggregates_witness :
  exists resp,
    Routes.chat canned_replies fan_out_request server_demo
      = (Ok resp, (Routes.fan_out canned_replies fan_out_request server_demo).2) /\
    length [reply_a; reply_b] = 2%nat /\
    length (choices resp) = 2%nat /\
    (forall i r, [reply_a; reply_b] !! i = Some r ->
                 choices resp !! i = Some (choice_of i r)) /\
    usage resp = {| prompt := 0; completion := 0; total := 5 |} /\
    prompt (usage resp) = 0 /\
    completion (usage resp) = 0 /\
    total (usage resp) = 5.
Proof.
  apply (chat_aggregates canned_replies fan_out_request server_demo
           (Routes.fan_out canned_replies fan_out_request server_demo).2
           [reply_a; reply_b]).
  - reflexivity.
  - vm_compute. reflexivity.
  - repeat constructor; eexists; (split; [reflexivity|]); split; eexists; reflexivity.
Defined.











(** ** Devices and replicas *)

Create HintDb quiet.

Section Quiet.
Context {S : Type} (lit_api : LitAPI S).

Lemma quiet_ret {A} (a : A) : quiet (mret a : M (worker S) A).
Proof. intros w. exists []. by rewrite app_nil_r. Qed.

Lemma quiet_raise {A} (e : pyexn) : quiet (raise e : M (worker S) A).
Proof. intros w. exists []. by rewrite app_nil_r. Qed.

Lemma quiet_bind {A B} (m : M (worker S) A) (f : A -> M (worker S) B) :
  quiet m -> (forall a, quiet (f a)) -> quiet (m ≫= f).
Proof.
  intros Hm Hf w. destruct (Hm w) as (evs & Hlog & Hevs).
  unfold_monad. destruct (m w) as [[a|e] w1]; cbn in *.
  - destruct (Hf a w1) as (evs' & Hlog' & Hevs').
    exists (evs ++ evs'). rewrite Hlog', Hlog, app_assoc.
    split; [done|]. by apply Forall_app.
  - by exists evs.
Qed.

Lemma quiet_try_except {A} (m h : M (worker S) A) (handles : pyexn -> bool) :
  quiet m -> quiet h -> quiet (try_except m handles h).
Proof.
  intros Hm Hh w. destruct (Hm w) as (evs & Hlog & Hevs).
  unfold try_except. destruct (m w) as [[a|e] w1]; cbn in *.
  - by exists evs.
  - destruct (handles e); [|by exists evs].
    destruct (Hh w1) as (evs' & Hlog' & Hevs').
    exists (evs ++ evs'). rewrite Hlog', Hlog, app_assoc.
    split; [done|]. by apply Forall_app.
Qed.

Lemma quiet_on_self {A} (m : M S A) : quiet (on_self m).
Proof.
  intros w. exists []. unfold on_self, zoom.
  destruct (m (self w)). cbn. by rewrite app_nil_r.
Qed.

Lemma quiet_on_shared {A} (m : M shared A) : quiet (on_shared (S := S) m).
Proof.
  intros w. exists []. unfold on_shared, zoom.
  destruct (m (wshared w)). cbn. by rewrite app_nil_r.
Qed.

Lemma quiet_record (e : event) : is_setup e = false -> quiet (record (S := S) e).
Proof. intros H w. exists [e]. cbn. split; [done|]. by constructor. Qed.

Hint Resolve quiet_ret quiet_raise quiet_on_self quiet_on_shared : quiet.
Hint Extern 2 (quiet (_ ≫= _)) => apply quiet_bind; [|intros] : quiet.
Hint Extern 2 (quiet (try_except _ _ _)) => apply quiet_try_except : quiet.
Hint Extern 2 (quiet (record _)) => apply quiet_record; reflexivity : quiet.
Hint Extern 3 (quiet (match ?x with _ => _ end)) => destruct x : quiet.

Lemma quiet_fetch : quiet (fetch (S := S)).
Proof. unfold fetch. auto 10 with quiet. Qed.

Lemma quiet_call_decode x : quiet (call_decode lit_api x).
Proof. unfold call_decode. auto with quiet. Qed.
Lemma quiet_call_batch x : quiet (call_batch lit_api x).
Proof. unfold call_batch. auto with quiet. Qed.
Lemma quiet_call_predict x : quiet (call_predict lit_api x).
Proof. unfold call_predict. auto with quiet. Qed.
Lemma quiet_call_unbatch x : quiet (call_unbatch lit_api x).
Proof. unfold call_unbatch. auto with quiet. Qed.
Lemma quiet_call_encode x : quiet (call_encode lit_api x).
Proof. unfold call_encode. auto with quiet. Qed.
Lemma quiet_send_reply c v : quiet (send_reply (S := S) c v).
Proof. unfold send_reply, suppress. auto 10 with quiet. Qed.

Hint Resolve quiet_fetch quiet_call_decode quiet_call_batch quiet_call_predict
  quiet_call_unbatch quiet_call_encode quiet_send_reply : quiet.

Lemma quiet_for_each {A} (xs : list A) (body : A -> M (worker S) unit) :
  (forall x, quiet (body x)) -> quiet (for_each xs body).
Proof. intros H. induction xs; cbn [for_each]; auto with quiet. Qed.

Lemma quiet_single_loop_body : quiet (single_loop_body lit_api).
Proof. unfold single_loop_body. auto 10 with quiet. Qed.

Lemma quiet_single_loop fuel : quiet (single_loop lit_api fuel).
Proof.
  induction fuel; cbn [single_loop]; [auto with quiet|].
  apply quiet_bind; [apply quiet_single_loop_body|done].
Qed.

Lemma quiet_collect k inputs pipes : quiet (collect lit_api k inputs pipes).
Proof.
  revert inputs pipes. induction k as [|k IH]; intros inputs pipes;
    cbn [collect]; [auto with quiet|].
  apply quiet_bind; [apply quiet_fetch|]. intros [x_enc pipe_s| |];
    auto with quiet.
Qed.

Lemma quiet_batched_loop_body mbs : quiet (batched_loop_body lit_api mbs).
Proof.
  unfold batched_loop_body. apply quiet_bind; [apply quiet_collect|].
  intros [[|x inputs] pipes]; [auto with quiet|].
  do 3 (apply quiet_bind; [auto with quiet|]; intros ?).
  apply quiet_for_each. intros [pipe_s y]. auto with quiet.
Qed.

Lemma quiet_batched_loop fuel mbs : quiet (batched_loop lit_api fuel mbs).
Proof.
  induction fuel; cbn [batched_loop]; [auto with quiet|].
  apply quiet_bind; [apply quiet_batched_loop_body|done].
Qed.

(** A replica calls its setup stage once, first, and never again. *)
Lemma inference_worker_setup_once fuel d worker_id mbs (w : worker S) :
  exists evs,
    log (inference_worker lit_api fuel d worker_id mbs w).2
      = log w ++ CallSetup d :: evs /\
    Forall (fun e => is_setup e = false) evs.
Proof.
  assert (forall w1 : worker S, exists evs,
            log ((if bool_decide (mbs > 1) then batched_loop lit_api fuel mbs
                  else single_loop lit_api fuel) w1).2 = log w1 ++ evs /\
            Forall (fun e => is_setup e = false) evs) as Hq.
  { intros w1. case_bool_decide;
      [apply quiet_batched_loop|apply quiet_single_loop]. }
  unfold inference_worker, call_setup, record, on_self. unfold_monad.
  cbn [self wshared log].
  destruct (setup lit_api d (self w)) as [[[]|e] s1]; cbn [fst snd log].
  - destruct (Hq {| self := s1; wshared := wshared w;
                    log := log w ++ [CallSetup d] |}) as (evs & Hlog & Hevs).
    exists evs. rewrite Hlog. cbn [log]. by rewrite <- app_assoc.
  - by exists [].
Qed.

(** A replica's loop starts from the API object as its setup stage left it,
    and does not start when setup raises. *)
Lemma inference_worker_after_setup fuel d worker_id mbs (w : worker S) :
  match setup lit_api d (self w) with
  | (Ok _, self') =>
      inference_worker lit_api fuel d worker_id mbs w
        = (if bool_decide (mbs > 1) then batched_loop lit_api fuel mbs
           else single_loop lit_api fuel)
            {| self := self'; wshared := wshared w; log := log w ++ [CallSetup d] |}
  | (Raise e, self') =>
      inference_worker lit_api fuel d worker_id mbs w
        = (Raise e, {| self := self'; wshared := wshared w;
                       log := log w ++ [CallSetup d] |})
  end.
Proof.
  unfold inference_worker, call_setup, record, on_self. unfold_monad.
  cbn [self wshared log].
  by destruct (setup lit_api d (self w)) as [[[]|e] s1].
Qed.
End Quiet.

Lemma imap_map {A B C} (h : B -> C) (k : A -> C) (l : list A) :
  forall f : nat -> A -> B,
    (forall i x, h (f i x) = k x) -> map h (imap f l) = map k l.
Proof.
  induction l as [|x l IH]; intros f H; cbn; [done|].
  rewrite H. f_equal. apply IH. intros i y. apply H.
Qed.

Lemma imap_index {A B} (h : B -> nat) (l : list A) :
  forall (f : nat -> A -> B) (k : nat),
    (forall i x, h (f i x) = (k + i)%nat) -> map h (imap f l) = seq k (length l).
Proof.
  induction l as [|x l IH]; intros f k H; cbn; [done|].
  rewrite H, Nat.add_0_r. f_equal. apply IH. intros i y. cbn. rewrite H. lia.
Qed.

Lemma list_repeat_map {A B} (f : A -> B) (l : list A) (k : Z) :
  map f (list_repeat l k) = list_repeat (map f l) k.
Proof.
  unfold list_repeat. rewrite concat_map. f_equal.
  induction (Z.to_nat k) as [|m IH]; cbn; congruence.
Qed.

Lemma list_repeat_length {A} (l : list A) (k : Z) :
  length (list_repeat l k) = (length l * Z.to_nat k)%nat.
Proof.
  unfold list_repeat. induction (Z.to_nat k) as [|m IH]; cbn; [lia|].
  rewrite length_app, IH. lia.
Qed.

Lemma unwrap_identifiers (accelerator : string) (d : device_index) :
  unwrap_device (DevList (device_identifiers accelerator d)) = device_of accelerator d.
Proof. destruct d as [i|[|i [|j l]]]; reflexivity. Qed.

Lemma init_devices_unwrap (accelerator : string) (devices : devices_arg) :
  accelerator ∈ ["cpu"; "cuda"; "gpu"] ->
  exists ds, init_devices accelerator devices = Some ds /\
             map unwrap_device ds = device_list accelerator devices.
Proof.
  intros H. unfold init_devices, device_list.
  destruct (String.eqb accelerator "cpu") eqn:Ecpu.
  - apply String.eqb_eq in Ecpu as ->. by eexists.
  - assert (String.eqb accelerator "cuda" || String.eqb accelerator "gpu" = true) as ->.
    { repeat (apply elem_of_cons in H as [->|H]; [done|]). by apply elem_of_nil in H. }
    eexists. split; [done|]. rewrite map_map.
    destruct devices as [k|l].
    + rewrite map_map. apply map_ext. intros i. apply unwrap_identifiers.
    + apply map_ext. intros d. apply unwrap_identifiers.
Qed.

(** C9. The replicas of a server built for the accelerator "cpu", "cuda" or
    "gpu": [lifespan] starts one process per entry of the device list
    repeated [workers_per_device] times, the device list being the single
    device "cpu", or one device [family:index] per index of the count or of
    the index list; the processes are numbered in order.  Each process calls
    its setup stage once, with its device, before its loop, which never
    calls it again; the loop (the batched one when [max_batch_size > 1], the
    single one otherwise) then runs on the API object as setup left it, and
    is not entered at all when setup raises. *)
Theorem replicas_per_device (entropy : nat -> uid) (accelerator : string)
    (devices : devices_arg) (workers_per_device timeout max_batch_size : Z) :
  accelerator ∈ ["cpu"; "cuda"; "gpu"] ->
  exists procs g',
    lifespan (LitServer_init entropy accelerator devices workers_per_device
                             timeout max_batch_size) = (Ok procs, g') /\
    map proc_device procs
      = list_repeat (device_list accelerator devices) workers_per_device /\
    length procs
      = (length (device_list accelerator devices) * Z.to_nat workers_per_device)%nat /\
    map proc_worker_id procs = seq 0 (length procs) /\
    Forall (fun p => proc_max_batch_size p = max_batch_size) procs /\
    forall (S : Type) (lit_api : LitAPI S) (fuel : nat) (p : Process) (w : worker S),
      p ∈ procs ->
      (exists evs,
         log (run_process lit_api fuel p w).2
           = log w ++ CallSetup (proc_device p) :: evs /\
         Forall (fun e => is_setup e = false) evs) /\
      match setup lit_api (proc_device p) (self w) with
      | (Ok _, self') =>
          run_process lit_api fuel p w
            = (if bool_decide (max_batch_size > 1)
               then batched_loop lit_api fuel max_batch_size
               else single_loop lit_api fuel)
                {| self := self'; wshared := wshared w;
                   log := log w ++ [CallSetup (proc_device p)] |}
      | (Raise e, self') =>
          run_process lit_api fuel p w
            = (Raise e, {| self := self'; wshared := wshared w;
                           log := log w ++ [CallSetup (proc_device p)] |})
      end.
Proof.
  intros Hacc.
  destruct (init_devices_unwrap accelerator devices Hacc) as (ds & Hds & Hun).
  unfold lifespan, LitServer_init. cbn [app_devices set_app_shared].
  rewrite Hds. cbn [app_workers_per_device app_max_batch_size].
  eexists _, _. split; [reflexivity|].
  assert (map proc_device
            (imap (fun worker_id d =>
                     {| proc_device := unwrap_device d; proc_worker_id := worker_id;
                        proc_max_batch_size := max_batch_size |})
                  (list_repeat ds workers_per_device))
          = list_repeat (device_list accelerator devices) workers_per_device) as Hdev.
  { rewrite (imap_map _ unwrap_device) by done. by rewrite list_repeat_map, Hun. }
  assert (Forall (fun p => proc_max_batch_size p = max_batch_size)
            (imap (fun worker_id d =>
                     {| proc_device := unwrap_device d; proc_worker_id := worker_id;
                        proc_max_batch_size := max_batch_size |})
                  (list_repeat ds workers_per_device))) as Hmbs.
  { apply list.Forall_forall. intros p Hp.
    apply list_elem_of_lookup in Hp as [i Hi].
    rewrite list_lookup_imap in Hi.
    destruct (_ !! i); [|done].
    by injection Hi as <-. }
  split; [done|]. split; [|split; [|split; [done|]]].
  - rewrite <- list_repeat_length, <- Hdev. by rewrite length_map.
  - rewrite length_imap. by apply imap_index.
  - intros S lit_api fuel p w Hp.
    split; [apply inference_worker_setup_once|].
    rewrite list.Forall_forall in Hmbs. specialize (Hmbs p Hp).
    unfold run_process. rewrite Hmbs. apply inference_worker_after_setup.
Qed.

Lemma replicas_per_device_witness :
  log (run_process SimpleLitAPI.api 1
         {| proc_device := DevStr "cuda:0"; proc_worker_id := 0;
            proc_max_batch_size := 1 |} started_worker).2
    = [CallSetup (DevStr "cuda:0");
       CallDecode (PyDict [("input", PyFloat 4)]);
       CallPredict (PyFloat 4);
       CallEncode (PyFloat 16);
       Sent (Conn 0 false) (PyDict [("output", PyFloat 16)])] /\
  exists procs g',
    lifespan (LitServer_init (fun i => N.of_nat i) "cuda" (DeviceCount 2) 2 30 1)
      = (Ok procs, g') /\
    map proc_device procs
      = [DevStr "cuda:0"; DevStr "cuda:1"; DevStr "cuda:0"; DevStr "cuda:1"] /\
    length procs = 4%nat /\
    map proc_worker_id procs = seq 0 (length procs) /\
    Forall (fun p => proc_max_batch_size p = 1) procs /\
    forall (S : Type) (lit_api : LitAPI S) (fuel : nat) (p : Process) (w : worker S),
      p ∈ procs ->
      (exists evs,
         log (run_process lit_api fuel p w).2
           = log w ++ CallSetup (proc_device p) :: evs /\
         Forall (fun e => is_setup e = false) evs) /\
      match setup lit_api (proc_device p) (self w) with
      | (Ok _, self') =>
          run_process lit_api fuel p w
            = single_loop lit_api fuel
                {| self := self'; wshared := wshared w;
                   log := log w ++ [CallSetup (proc_device p)] |}
      | (Raise e, self') =>
          run_process lit_api fuel p w
            = (Raise e, {| self := self'; wshared := wshared w;
                           log := log w ++ [CallSetup (proc_device p)] |})
      end.
Proof.
  split; [vm_compute; reflexivity|].
  apply (replicas_per_device (fun i => N.of_nat i) "cuda" (DeviceCount 2) 2 30 1).
  right. left.
Defined.

(** * Further properties *)

(** ** The request table, continued *)

(** X1. Storing an entry and taking it: whatever the table held under the
    identifier before, the take that follows the store returns the entry
    just stored, the identifier is absent afterwards, and no other
    identifier is affected by the two operations. *)
Theorem insert_take_round_trip (s : shared) (u : uid) (e : pyval * Connection) :
  exists s1 s2,
    buffer_setitem u e s = (Ok tt, s1) /\
    take u s1 = (Ok (Some e), s2) /\
    request_buffer s2 = delete u (request_buffer s) /\
    (forall u', u' ≠ u -> request_buffer s2 !! u' = request_buffer s !! u') /\
    request_queue s2 = request_queue s /\
    inbox s2 = inbox s.
Proof.
  eexists _, _. split; [reflexivity|]. split.
  - apply take_present. cbn. apply lookup_insert_eq.
  - cbn. rewrite delete_insert_eq. repeat split.
    intros u' Hne. by rewrite lookup_delete_ne.
Qed.

(** X2. [cleanup] never raises and touches nothing but its own identifier:
    the other entries of the table, the queue and the pipes are as before;
    on an identifier that is absent it changes nothing at all. *)
Theorem cleanup_only_its_key (s : shared) (u : uid) :
  exists s',
    cleanup u s = (Ok tt, s') /\
    request_buffer s' = delete u (request_buffer s) /\
    (forall u', u' ≠ u -> request_buffer s' !! u' = request_buffer s !! u') /\
    request_queue s' = request_queue s /\
    inbox s' = inbox s /\
    closed s' = closed s /\
    (request_buffer s !! u = None -> s' = s).
Proof.
  exists (take u s).2. split; [apply cleanup_take|].
  unfold take, buffer_pop. unfold_monad.
  destruct (request_buffer s !! u) eqn:E; cbn.
  - repeat split; try done. intros u' Hne. by rewrite lookup_delete_ne.
  - rewrite (delete_id _ _ E). repeat split; done.
Qed.

(** ** The worker loops, continued *)

Section WorkerMore.
Context {S : Type} (lit_api : LitAPI S).
Implicit Types (w : worker S).

Lemma fetch_closed w :
  queue_closed (wshared w) = true -> fetch w = (Ok Idle, w).
Proof.
  intros Hc. unfold fetch, on_shared, queue_get.
  unfold_monad. rewrite Hc. simpl. by destruct w.
Qed.

Lemma fetch_stale w u q :
  queue_closed (wshared w) = false ->
  request_queue (wshared w) = u :: q ->
  request_buffer (wshared w) !! u = None ->
  fetch w = (Ok Stale,
             {| self := self w; wshared := set_request_queue q (wshared w);
                log := log w |}).
Proof.
  intros Hc Hq Hb. unfold fetch, on_shared, queue_get, buffer_pop.
  unfold_monad. rewrite Hc, Hq. simpl. by rewrite Hb.
Qed.

(** The three ways [fetch] can end; it never raises. *)
Lemma fetch_inv w :
  fetch w = (Ok Idle, w) \/
  (exists u q,
     request_queue (wshared w) = u :: q /\
     ((request_buffer (wshared w) !! u = None /\
       fetch w = (Ok Stale,
                  {| self := self w; wshared := set_request_queue q (wshared w);
                     log := log w |})) \/
      (exists x_enc pipe_s,
         request_buffer (wshared w) !! u = Some (x_enc, pipe_s) /\
         fetch w = (Ok (Taken x_enc pipe_s),
                    {| self := self w;
                       wshared := set_request_buffer
                                    (delete u (request_buffer (wshared w)))
                                    (set_request_queue q (wshared w));
                       log := log w |})))).
Proof.
  destruct (queue_closed (wshared w)) eqn:Hc; [left; by apply fetch_closed|].
  destruct (request_queue (wshared w)) as [|u q] eqn:Hq; [left; by apply fetch_idle|].
  right. exists u, q. split; [done|].
  destruct (request_buffer (wshared w) !! u) as [[x_enc pipe_s]|] eqn:Hb.
  - right. exists x_enc, pipe_s. split; [done|]. by eapply fetch_taken.
  - left. split; [done|]. by eapply fetch_stale.
Qed.

Lemma call_decode_run w x_enc :
  call_decode lit_api x_enc w =
    ((decode_request lit_api x_enc (self w)).1,
     {| self := (decode_request lit_api x_enc (self w)).2; wshared := wshared w;
        log := log w ++ [CallDecode x_enc] |}).
Proof.
  unfold call_decode, record, on_self. unfold_monad. cbn.
  by destruct (decode_request lit_api x_enc (self w)).
Qed.

Lemma call_predict_run w x :
  call_predict lit_api x w =
    ((predict lit_api x (self w)).1,
     {| self := (predict lit_api x (self w)).2; wshared := wshared w;
        log := log w ++ [CallPredict x] |}).
Proof.
  unfold call_predict, record, on_self. unfold_monad. cbn.
  by destruct (predict lit_api x (self w)).
Qed.

Lemma call_encode_run w y :
  call_encode lit_api y w =
    ((encode_response lit_api y (self w)).1,
     {| self := (encode_response lit_api y (self w)).2; wshared := wshared w;
        log := log w ++ [CallEncode y] |}).
Proof.
  unfold call_encode, record, on_self. unfold_monad. cbn.
  by destruct (encode_response lit_api y (self w)).
Qed.

(** Both loops spin without effect on an empty or closed queue. *)
Lemma single_loop_idle fuel w :
  fetch w = (Ok Idle, w) -> single_loop lit_api fuel w = (Ok tt, w).
Proof.
  intros H. induction fuel as [|fuel IH]; [done|].
  cbn [single_loop]. erewrite bind_Ok; [exact IH|].
  unfold single_loop_body. by rewrite (bind_Ok _ _ _ _ _ H).
Qed.

Lemma batched_loop_idle fuel max_batch_size w :
  fetch w = (Ok Idle, w) -> batched_loop lit_api fuel max_batch_size w = (Ok tt, w).
Proof.
  intros H. induction fuel as [|fuel IH]; [done|].
  cbn [batched_loop]. erewrite bind_Ok; [exact IH|].
  unfold batched_loop_body.
  destruct (Z.to_nat max_batch_size) as [|k]; cbn [collect].
  - erewrite bind_Ok; [|reflexivity]. done.
  - erewrite bind_Ok; [|by rewrite (bind_Ok _ _ _ _ _ H)]. done.
Qed.
End WorkerMore.

(** X3. With nothing queued, or with the queue closed, both loops spin
    without any effect, for every API and however long they run: no stage is
    called, nothing is sent and the shared state is untouched. *)
Theorem loops_idle {S} (lit_api : LitAPI S) (fuel : nat) (max_batch_size : Z)
    (w : worker S) :
  queue_closed (wshared w) = true \/ request_queue (wshared w) = [] ->
  single_loop lit_api fuel w = (Ok tt, w) /\
  batched_loop lit_api fuel max_batch_size w = (Ok tt, w).
Proof.
  intros H.
  assert (fetch w = (Ok Idle, w)) as Hidle.
  { destruct (queue_closed (wshared w)) eqn:Hc; [by apply fetch_closed|].
    destruct H as [H|H]; [done|]. by apply fetch_idle. }
  split; [by apply single_loop_idle|by apply batched_loop_idle].
Qed.

Lemma loops_idle_witness :
  single_loop SimpleLitAPI.api 5 idle_worker = (Ok tt, idle_worker) /\
  batched_loop SimpleLitAPI.api 5 2 idle_worker = (Ok tt, idle_worker).
Proof.
  apply (loops_idle SimpleLitAPI.api 5 2 idle_worker).
  right. reflexivity.
Defined.

(** X4. A queued identifier whose entry is gone from the table (it was
    cleaned up or taken by another replica) is dropped by the single loop:
    the turn removes it from the queue and does nothing else, for every
    API. *)
Theorem single_loop_skips_stale {S} (lit_api : LitAPI S) (w : worker S)
    (u : uid) (q : list uid) :
  queue_closed (wshared w) = false ->
  request_queue (wshared w) = u :: q ->
  request_buffer (wshared w) !! u = None ->
  single_loop lit_api 1 w =
    (Ok tt, {| self := self w; wshared := set_request_queue q (wshared w);
               log := log w |}).
Proof.
  intros Hc Hq Hb. cbn [single_loop]. unfold single_loop_body.
  erewrite bind_Ok; [reflexivity|].
  by rewrite (bind_Ok _ _ _ _ _ (fetch_stale w u q Hc Hq Hb)).
Qed.

Lemma single_loop_skips_stale_witness :
  single_loop SimpleLitAPI.api 1 stale_worker =
    (Ok tt, {| self := self stale_worker;
               wshared := set_request_queue [] (wshared stale_worker);
               log := log stale_worker |}).
Proof.
  apply (single_loop_skips_stale SimpleLitAPI.api stale_worker 9%N []);
    reflexivity.
Defined.

(** X5. One turn of the single loop, for every API: when the three stages
    succeed on the payload of the request at the head of the queue, the turn
    calls them in the order decode, predict, encode, each on the result of
    the one before, sends the encoded result once, on the sender stored with
    the request, and leaves the API object as the stages left it. *)
Theorem single_loop_delivers {S} (lit_api : LitAPI S) (w : worker S)
    (u : uid) (q : list uid) (x_enc x y y_enc : pyval) (pipe_s : Connection)
    (s1 s2 s3 : S) :
  queue_closed (wshared w) = false ->
  request_queue (wshared w) = u :: q ->
  request_buffer (wshared w) !! u = Some (x_enc, pipe_s) ->
  decode_request lit_api x_enc (self w) = (Ok x, s1) ->
  predict lit_api x s1 = (Ok y, s2) ->
  encode_response lit_api y s2 = (Ok y_enc, s3) ->
  pipe_s ∉ closed (wshared w) ->
  peer pipe_s ∉ closed (wshared w) ->
  exists w',
    single_loop lit_api 1 w = (Ok tt, w') /\
    self w' = s3 /\
    log w' = log w ++ [CallDecode x_enc; CallPredict x; CallEncode y;
                       Sent pipe_s y_enc] /\
    pending (peer pipe_s) (wshared w')
      = pending (peer pipe_s) (wshared w) ++ [y_enc] /\
    (forall c, c ≠ peer pipe_s -> pending c (wshared w') = pending c (wshared w)) /\
    request_queue (wshared w') = q /\
    request_buffer (wshared w') = delete u (request_buffer (wshared w)).
Proof.
  intros Hc Hq Hb Hd Hp He Hs Hr.
  eexists. split.
  - cbn [single_loop]. unfold single_loop_body.
    erewrite bind_Ok; [reflexivity|].
    rewrite (bind_Ok _ _ _ _ _ (fetch_taken w u q x_enc pipe_s Hc Hq Hb)).
    erewrite bind_Ok;
      [|rewrite call_decode_run; cbn [self]; rewrite Hd; cbn [fst snd]; reflexivity].
    erewrite bind_Ok;
      [|rewrite call_predict_run; cbn [self]; rewrite Hp; cbn [fst snd]; reflexivity].
    erewrite bind_Ok;
      [|rewrite call_encode_run; cbn [self]; rewrite He; cbn [fst snd]; reflexivity].
    by apply send_reply_open.
  - cbn. repeat split; try done.
    + by rewrite <- !app_assoc.
    + unfold pending. cbn. by rewrite lookup_insert_eq.
    + intros c Hne. unfold pending. cbn. by rewrite lookup_insert_ne.
Qed.

Lemma single_loop_delivers_witness :
  exists w',
    single_loop SimpleLitAPI.api 1 single_demo = (Ok tt, w') /\
    self w' = self single_demo /\
    log w' = log single_demo ++
               [CallDecode (PyDict [("input", PyFloat 4)]); CallPredict (PyFloat 4);
                CallEncode (PyFloat 16);
                Sent (Conn 0 false) (PyDict [("output", PyFloat 16)])] /\
    pending (peer (Conn 0 false)) (wshared w')
      = pending (peer (Conn 0 false)) (wshared single_demo)
          ++ [PyDict [("output", PyFloat 16)]] /\
    (forall c, c ≠ peer (Conn 0 false) ->
               pending c (wshared w') = pending c (wshared single_demo)) /\
    request_queue (wshared w') = [] /\
    request_buffer (wshared w') = delete 7%N (request_buffer (wshared single_demo)).
Proof.
  apply (single_loop_delivers SimpleLitAPI.api single_demo 7%N []
           (PyDict [("input", PyFloat 4)]) (PyFloat 4) (PyFloat 16)
           (PyDict [("output", PyFloat 16)]) (Conn 0 false)
           (self single_demo) (self single_demo) (self single_demo));
    try reflexivity; apply not_elem_of_empty.
Defined.

(** X6. A reply whose receiver is gone is swallowed: the turn still runs the
    three stages and consumes the request, then ends normally with nothing
    delivered, so the loop goes on with the next request. *)
Theorem single_loop_broken_pipe {S} (lit_api : LitAPI S) (w : worker S)
    (u : uid) (q : list uid) (x_enc x y y_enc : pyval) (pipe_s : Connection)
    (s1 s2 s3 : S) :
  queue_closed (wshared w) = false ->
  request_queue (wshared w) = u :: q ->
  request_buffer (wshared w) !! u = Some (x_enc, pipe_s) ->
  decode_request lit_api x_enc (self w) = (Ok x, s1) ->
  predict lit_api x s1 = (Ok y, s2) ->
  encode_response lit_api y s2 = (Ok y_enc, s3) ->
  pipe_s ∉ closed (wshared w) ->
  peer pipe_s ∈ closed (wshared w) ->
  single_loop lit_api 1 w =
    (Ok tt,
     {| self := s3;
        wshared := set_request_buffer (delete u (request_buffer (wshared w)))
                     (set_request_queue q (wshared w));
        log := log w ++ [CallDecode x_enc; CallPredict x; CallEncode y] |}).
Proof.
  intros Hc Hq Hb Hd Hp He Hs Hr.
  cbn [single_loop]. unfold single_loop_body.
  erewrite bind_Ok; [reflexivity|].
  rewrite (bind_Ok _ _ _ _ _ (fetch_taken w u q x_enc pipe_s Hc Hq Hb)).
  erewrite bind_Ok;
    [|rewrite call_decode_run; cbn [self]; rewrite Hd; cbn [fst snd]; reflexivity].
  erewrite bind_Ok;
    [|rewrite call_predict_run; cbn [self]; rewrite Hp; cbn [fst snd]; reflexivity].
  erewrite bind_Ok;
    [|rewrite call_encode_run; cbn [self]; rewrite He; cbn [fst snd]; reflexivity].
  rewrite send_reply_broken by done. cbn. by rewrite <- !app_assoc.
Qed.

Lemma single_loop_broken_pipe_witness :
  single_loop SimpleLitAPI.api 1 abandoned_worker =
    (Ok tt,
     {| self := self abandoned_worker;
        wshared := set_request_buffer
                     (delete 7%N (request_buffer (wshared abandoned_worker)))
                     (set_request_queue [] (wshared abandoned_worker));
        log := [CallDecode (PyDict [("input", PyFloat 4)]); CallPredict (PyFloat 4);
                CallEncode (PyFloat 16)] |}).
Proof.
  apply (single_loop_broken_pipe SimpleLitAPI.api abandoned_worker 7%N []
           (PyDict [("input", PyFloat 4)]) (PyFloat 4) (PyFloat 16)
           (PyDict [("output", PyFloat 16)]) (Conn 0 false)
           (self abandoned_worker) (self abandoned_worker) (self abandoned_worker));
    try reflexivity; apply (bool_decide_unpack _); by vm_compute.
Defined.

Lemma senders_calls (l : list event) (evs : list event) :
  Forall (fun e => forall p v, e ≠ Sent p v) evs ->
  senders (l ++ evs) = senders l.
Proof.
  intros H. unfold senders. rewrite omap_app.
  induction H as [|e evs He _ IH]; cbn; [by rewrite app_nil_r|].
  destruct e; try exact IH. by destruct (He pipe_s y_enc).
Qed.

(** X7. An exception raised by a stage of the API ends the whole loop, not
    just the turn: however many turns were left, the loop stops with that
    exception; the request was already taken from the queue and the table,
    no reply is sent for it, and the requests queued behind it are left
    unprocessed. *)
Theorem single_loop_stage_failure {S} (lit_api : LitAPI S) (fuel : nat)
    (w : worker S) (u : uid) (q : list uid) (x_enc : pyval)
    (pipe_s : Connection) (e : pyexn) (s' : S) :
  queue_closed (wshared w) = false ->
  request_queue (wshared w) = u :: q ->
  request_buffer (wshared w) !! u = Some (x_enc, pipe_s) ->
  stages lit_api x_enc (self w) = (Raise e, s') ->
  exists w',
    single_loop lit_api (Datatypes.S fuel) w = (Raise e, w') /\
    self w' = s' /\
    wshared w' = set_request_buffer (delete u (request_buffer (wshared w)))
                   (set_request_queue q (wshared w)) /\
    senders (log w') = senders (log w).
Proof.
  intros Hc Hq Hb Hst.
  unfold stages in Hst. unfold_monad.
  cbn [single_loop]. unfold single_loop_body.
  destruct (decode_request lit_api x_enc (self w)) as [[x|e1] s1] eqn:Hd.
  2:{ injection Hst as -> ->. eexists. split.
      - erewrite bind_Raise; [reflexivity|].
        rewrite (bind_Ok _ _ _ _ _ (fetch_taken w u q x_enc pipe_s Hc Hq Hb)).
        erewrite bind_Raise; [reflexivity|].
        rewrite call_decode_run; cbn [self]; rewrite Hd; cbn [fst snd]; reflexivity.
      - cbn. repeat split. apply senders_calls. repeat constructor; done. }
  destruct (predict lit_api x s1) as [[y|e2] s2] eqn:Hp.
  2:{ injection Hst as -> ->. eexists. split.
      - erewrite bind_Raise; [reflexivity|].
        rewrite (bind_Ok _ _ _ _ _ (fetch_taken w u q x_enc pipe_s Hc Hq Hb)).
        erewrite bind_Ok;
          [|rewrite call_decode_run; cbn [self]; rewrite Hd; cbn [fst snd]; reflexivity].
        erewrite bind_Raise; [reflexivity|].
        rewrite call_predict_run; cbn [self]; rewrite Hp; cbn [fst snd]; reflexivity.
      - cbn. repeat split. rewrite <- app_assoc. apply senders_calls.
        repeat constructor; done. }
  eexists. split.
  - erewrite bind_Raise; [reflexivity|].
    rewrite (bind_Ok _ _ _ _ _ (fetch_taken w u q x_enc pipe_s Hc Hq Hb)).
    erewrite bind_Ok;
      [|rewrite call_decode_run; cbn [self]; rewrite Hd; cbn [fst snd]; reflexivity].
    erewrite bind_Ok;
      [|rewrite call_predict_run; cbn [self]; rewrite Hp; cbn [fst snd]; reflexivity].
    erewrite bind_Raise; [reflexivity|].
    rewrite call_encode_run; cbn [self]; rewrite Hst; cbn [fst snd]; reflexivity.
  - cbn. repeat split. rewrite <- !app_assoc. apply senders_calls.
    repeat constructor; done.
Qed.

Lemma single_loop_stage_failure_witness :
  exists w',
    single_loop SimpleLitAPI.api 3 malformed_worker = (Raise KeyError, w') /\
    self w' = self malformed_worker /\
    wshared w' = set_request_buffer
                   (delete 1%N (request_buffer (wshared malformed_worker)))
                   (set_request_queue [2%N] (wshared malformed_worker)) /\
    senders (log w') = senders (log malformed_worker).
Proof.
  apply (single_loop_stage_failure SimpleLitAPI.api 2 malformed_worker 1%N [2%N]
           (PyDict [("inputs", PyFloat 4)]) (Conn 0 false) KeyError
           (self malformed_worker)); reflexivity.
Defined.

Section Batches.
Context {S : Type} (lit_api : LitAPI S).
Implicit Types (w : worker S).

Lemma collect_bound k :
  forall inputs pipes w inputs' pipes' w',
    collect lit_api k inputs pipes w = (Ok (inputs', pipes'), w') ->
    exists xs ps,
      inputs' = inputs ++ xs /\ pipes' = pipes ++ ps /\
      length xs = length ps /\ (length xs <= k)%nat /\
      (length (request_queue (wshared w')) + length xs
         <= length (request_queue (wshared w)))%nat.
Proof.
  induction k as [|k IH]; intros inputs pipes w inputs' pipes' w'; cbn [collect].
  - intros [= <- <- <-]. exists [], []. rewrite !app_nil_r. cbn. repeat split; lia.
  - destruct (fetch_inv w) as [Hf|(u & q & Hq & [[_ Hf]|(x_enc & pipe_s & _ & Hf)])];
      rewrite (bind_Ok _ _ _ _ _ Hf).
    + intros [= <- <- <-]. exists [], []. rewrite !app_nil_r. cbn. repeat split; lia.
    + intros H. apply IH in H as (xs & ps & -> & -> & Hlen & Hk & Hqueue).
      exists xs, ps. cbn in Hqueue. rewrite Hq. cbn. repeat split; try done; lia.
    + unfold mbind at 1, M_bind. rewrite call_decode_run.
      destruct (decode_request lit_api x_enc _) as [[x|e] s1]; cbn [fst snd]; [|done].
      intros H. apply IH in H as (xs & ps & -> & -> & Hlen & Hk & Hqueue).
      exists (x :: xs), (pipe_s :: ps). rewrite <- !app_assoc. cbn in *.
      rewrite Hq. cbn. repeat split; try done; lia.
Qed.

Lemma sw_ret {A} (a : A) : sends_within [] (mret a : M (worker S) A).
Proof. intros w. exists []. by rewrite app_nil_r. Qed.

Lemma sw_raise {A} (e : pyexn) : sends_within [] (raise e : M (worker S) A).
Proof. intros w. exists []. by rewrite app_nil_r. Qed.

Lemma sw_weaken {A} (ps qs : list Connection) (m : M (worker S) A) :
  ps `sublist_of` qs -> sends_within ps m -> sends_within qs m.
Proof.
  intros Hsub Hm w. destruct (Hm w) as (ss & Hlog & Hss).
  exists ss. split; [done|]. by etransitivity.
Qed.

Lemma sw_bind {A B} (ps qs : list Connection) (m : M (worker S) A)
    (f : A -> M (worker S) B) :
  sends_within ps m -> (forall a, sends_within qs (f a)) ->
  sends_within (ps ++ qs) (m ≫= f).
Proof.
  intros Hm Hf w. destruct (Hm w) as (ss & Hlog & Hss).
  unfold_monad. destruct (m w) as [[a|e] w1]; cbn in *.
  - destruct (Hf a w1) as (ss' & Hlog' & Hss').
    exists (ss ++ ss'). rewrite Hlog', Hlog, app_assoc.
    split; [done|]. by apply sublist_app.
  - exists ss. split; [done|]. by apply sublist_inserts_r.
Qed.

Lemma sw_try_except {A} (ps qs : list Connection) (m h : M (worker S) A)
    (handles : pyexn -> bool) :
  sends_within ps m -> sends_within qs h ->
  sends_within (ps ++ qs) (try_except m handles h).
Proof.
  intros Hm Hh w. destruct (Hm w) as (ss & Hlog & Hss).
  unfold try_except. destruct (m w) as [[a|e] w1]; cbn in *.
  - exists ss. split; [done|]. by apply sublist_inserts_r.
  - destruct (handles e).
    + destruct (Hh w1) as (ss' & Hlog' & Hss').
      exists (ss ++ ss'). rewrite Hlog', Hlog, app_assoc.
      split; [done|]. by apply sublist_app.
    + exists ss. split; [done|]. by apply sublist_inserts_r.
Qed.

Lemma sw_on_self {A} (m : M S A) : sends_within [] (on_self m).
Proof.
  intros w. exists []. unfold on_self, zoom.
  destruct (m (self w)). cbn. by rewrite app_nil_r.
Qed.

Lemma sw_on_shared {A} (m : M shared A) : sends_within [] (on_shared (S := S) m).
Proof.
  intros w. exists []. unfold on_shared, zoom.
  destruct (m (wshared w)). cbn. by rewrite app_nil_r.
Qed.

Lemma sw_record_call (e : event) :
  (forall p v, e ≠ Sent p v) -> sends_within [] (record (S := S) e).
Proof.
  intros H w. exists []. cbn. rewrite app_nil_r. split; [|done].
  apply senders_calls. by constructor.
Qed.

Lemma sw_record_sent (p : Connection) (v : pyval) :
  sends_within [p] (record (S := S) (Sent p v)).
Proof.
  intros w. exists [p]. cbn. split; [|done].
  unfold senders. by rewrite omap_app.
Qed.

Lemma sw_call {A} (e : event) (m : M S A) :
  (forall p v, e ≠ Sent p v) ->
  sends_within [] (record e ≫= fun _ => on_self m).
Proof.
  intros H. apply (sw_bind [] []); [by apply sw_record_call|].
  intros _. apply sw_on_self.
Qed.

Lemma sw_send_reply (p : Connection) (v : pyval) :
  sends_within [p] (send_reply (S := S) p v).
Proof.
  unfold send_reply, suppress.
  apply (sw_weaken (([] ++ [p]) ++ [])); [by rewrite app_nil_r|].
  apply sw_try_except; [|apply sw_ret].
  apply sw_bind; [apply sw_on_shared|]. intros _. apply sw_record_sent.
Qed.

Lemma sw_fetch : sends_within [] (fetch (S := S)).
Proof.
  unfold fetch. apply (sw_try_except [] []); [|apply sw_ret].
  apply (sw_bind [] []); [apply sw_on_shared|]. intros u.
  apply (sw_try_except [] []); [|apply sw_ret].
  apply (sw_bind [] []); [apply sw_on_shared|]. intros [x_enc pipe_s]. apply sw_ret.
Qed.

Lemma sw_collect k inputs pipes :
  sends_within [] (collect lit_api k inputs pipes).
Proof.
  revert inputs pipes. induction k as [|k IH]; intros inputs pipes; cbn [collect].
  - apply sw_ret.
  - apply (sw_bind [] []); [apply sw_fetch|].
    intros [x_enc pipe_s| |]; [|apply IH|apply sw_ret].
    apply (sw_bind [] []); [by apply sw_call|]. intros x. apply IH.
Qed.

Lemma sw_for_each {A} (proj : A -> Connection) (xs : list A)
    (body : A -> M (worker S) unit) :
  (forall x, sends_within [proj x] (body x)) ->
  sends_within (map proj xs) (for_each xs body).
Proof.
  intros H. induction xs as [|x xs IH]; cbn [for_each map]; [apply sw_ret|].
  apply (sw_bind [proj x]); [apply H|]. intros _. apply IH.
Qed.

Lemma zip_fst_sublist {A B} (l : list A) (k : list B) :
  map fst (zip l k) `sublist_of` l.
Proof.
  revert k. induction l as [|x l IH]; intros [|y k]; cbn; try done.
  - apply sublist_nil_l.
  - by apply sublist_skip.
Qed.

Lemma sw_replies inputs pipes :
  sends_within pipes
    (call_batch lit_api inputs ≫= fun x =>
     call_predict lit_api x ≫= fun y =>
     call_unbatch lit_api y ≫= fun outputs =>
     for_each (zip pipes outputs) (fun '(pipe_s, y) =>
       call_encode lit_api y ≫= fun y_enc => send_reply pipe_s y_enc)).
Proof.
  apply (sw_bind [] pipes); [by apply sw_call|]. intros x.
  apply (sw_bind [] pipes); [by apply sw_call|]. intros y.
  apply (sw_bind [] pipes); [by apply sw_call|]. intros outputs.
  apply (sw_weaken (map fst (zip pipes outputs))); [apply zip_fst_sublist|].
  apply sw_for_each. intros [pipe_s y']. cbn [fst].
  apply (sw_bind [] [pipe_s]); [by apply sw_call|]. intros y_enc.
  apply sw_send_reply.
Qed.
End Batches.

(** X8. The [for] loop of the batched loop, for every API and from every
    state: when it ends normally it has collected as many senders as inputs,
    at most [max_batch_size] of them, and every collected request took at
    least one identifier off the queue. *)
Theorem batch_bounded {S} (lit_api : LitAPI S) (max_batch_size : Z)
    (w w' : worker S) (inputs : list pyval) (pipes : list Connection) :
  collect lit_api (Z.to_nat max_batch_size) [] [] w = (Ok (inputs, pipes), w') ->
  length inputs = length pipes /\
  Z.of_nat (length inputs) <= Z.max 0 max_batch_size /\
  (length (request_queue (wshared w')) + length inputs
     <= length (request_queue (wshared w)))%nat.
Proof.
  intros H. apply collect_bound in H as (xs & ps & -> & -> & Hlen & Hk & Hq).
  cbn. repeat split; [done|lia|done].
Qed.

Lemma batch_bounded_witness :
  length [PyArray (A0 4); PyArray (A0 5)] = length [Conn 0 false; Conn 1 false] /\
  Z.of_nat (length [PyArray (A0 4); PyArray (A0 5)]) <= Z.max 0 2 /\
  (length (request_queue
             (wshared (collect SimpleBatchedAPI.api (Z.to_nat 2) [] [] batched_demo).2))
   + length [PyArray (A0 4); PyArray (A0 5)]
   <= length (request_queue (wshared batched_demo)))%nat.
Proof.
  apply (batch_bounded SimpleBatchedAPI.api 2 batched_demo
           (collect SimpleBatchedAPI.api (Z.to_nat 2) [] [] batched_demo).2
           [PyArray (A0 4); PyArray (A0 5)] [Conn 0 false; Conn 1 false]).
  vm_compute. reflexivity.
Defined.

(** X9. One turn of the batched loop, for every API, from every state and
    however it ends: what it sends goes to senders it collected in this
    turn, in the order of collection, and no collected request is answered
    twice. *)
Theorem batched_replies_in_order {S} (lit_api : LitAPI S) (max_batch_size : Z)
    (w : worker S) :
  exists ss,
    senders (log (batched_loop_body lit_api max_batch_size w).2)
      = senders (log w) ++ ss /\
    ss `sublist_of` collected_pipes lit_api max_batch_size w.
Proof.
  unfold batched_loop_body, collected_pipes.
  destruct (sw_collect lit_api (Z.to_nat max_batch_size) [] [] w)
    as (ss0 & Hlog0 & Hss0).
  apply sublist_nil_r in Hss0 as ->. rewrite app_nil_r in Hlog0.
  unfold mbind at 1, M_bind.
  destruct (collect lit_api (Z.to_nat max_batch_size) [] [] w)
    as [[[inputs pipes]|e] w1]; cbn [fst snd] in *.
  - destruct inputs as [|x inputs].
    + exists []. cbn. rewrite app_nil_r. split; [done|apply sublist_nil_l].
    + destruct (sw_replies lit_api (x :: inputs) pipes w1) as (ss & Hlog & Hss).
      exists ss. split; [|done]. rewrite <- Hlog0. exact Hlog.
  - exists []. rewrite app_nil_r. split; [done|apply sublist_nil_l].
Qed.

(** ** The channel pool, continued *)

Lemma new_pipe_cases (g : LitServer) :
  (pipe_pool g = [] /\
   new_pipe g = (Ok (Conn (next_pipe g) false, Conn (next_pipe g) true),
                 set_next_pipe (Datatypes.S (next_pipe g)) g)) \/
  (exists l p, pipe_pool g = l ++ [p] /\ new_pipe g = (Ok p, set_pipe_pool l g)).
Proof.
  unfold new_pipe, pool_pop, Pipe. unfold_monad.
  destruct (pipe_pool g) as [|p l] using rev_ind.
  - left. by split.
  - right. exists l, p. split; [done|]. rewrite rev_app_distr. cbn.
    by rewrite rev_involutive.
Qed.

Lemma acquire_all_length (k : nat) (g : LitServer) :
  length (pipe_pool (acquire_all k g)) = (length (pipe_pool g) - k)%nat.
Proof.
  revert g. induction k as [|k IH]; intros g; cbn [acquire_all]; [lia|].
  rewrite IH, new_pipe_pool.
  destruct (pipe_pool g) as [|p l] using rev_ind; [done|].
  rewrite removelast_last, length_app. cbn. lia.
Qed.

(** X10. [new_pipe] never raises: it returns the pair pooled last, or the two
    ends of a pipe created on the spot when the pool is empty, in which case
    the pool stays empty.  After [k] acquisitions the pool holds [k] pairs
    fewer, none once [k] reaches its size. *)
Theorem new_pipe_total (g : LitServer) (k : nat) :
  (new_pipe g).1
    = Ok (default (Conn (next_pipe g) false, Conn (next_pipe g) true)
                  (last (pipe_pool g))) /\
  pipe_pool (new_pipe g).2 = removelast (pipe_pool g) /\
  next_pipe (new_pipe g).2
    = (if pipe_pool g is [] then Datatypes.S (next_pipe g) else next_pipe g) /\
  length (pipe_pool (acquire_all k g)) = (length (pipe_pool g) - k)%nat.
Proof.
  split; [|split; [apply new_pipe_pool|split; [|apply acquire_all_length]]].
  - destruct (new_pipe_cases g) as [[Hp ->]|(l & p & Hp & ->)]; rewrite Hp; cbn.
    + done.
    + by rewrite last_snoc.
  - destruct (new_pipe_cases g) as [[Hp ->]|(l & p & Hp & ->)]; rewrite Hp; cbn.
    + done.
    + by destruct l.
Qed.

Section PoolInvariant.
Implicit Types (g : LitServer) (p : Connection * Connection).

Lemma new_pipe_held g p g1 :
  pool_wf g -> new_pipe g = (Ok p, g1) ->
  p = (Conn (conn_pipe p.1) false, Conn (conn_pipe p.1) true) /\
  held (conn_pipe p.1) g1 /\
  forall j, held j g -> conn_pipe p.1 ≠ j /\ held j g1.
Proof.
  intros [Hnd Hall] Hnew.
  destruct (new_pipe_cases g) as [[Hp Hn]|(l & p0 & Hp & Hn)];
    rewrite Hn in Hnew; injection Hnew as <- <-; cbn.
  - split; [done|]. rewrite Hp in *. split.
    + split; [split; cbn; rewrite Hp; [constructor|constructor]|].
      split; cbn; [lia|]. rewrite Hp. intros q Hq. by apply elem_of_nil in Hq.
    + intros j (_ & Hj & _). split; [lia|].
      split; [split; cbn; rewrite Hp; [constructor|constructor]|].
      split; cbn; [lia|]. rewrite Hp. intros q Hq. by apply elem_of_nil in Hq.
  - rewrite Hp in Hnd, Hall.
    apply NoDup_app in Hnd as (Hl & Hnotin & _).
    apply Forall_app in Hall as [Hall Hp0].
    apply Forall_singleton in Hp0 as (i & -> & Hi). cbn.
    assert (forall q, q ∈ l -> conn_pipe q.1 ≠ i) as Hfree.
    { intros q Hq Heq. apply (Hnotin q Hq).
      rewrite list.Forall_forall in Hall.
      destruct (Hall q Hq) as (k & -> & _). cbn in Heq. subst k.
      apply list_elem_of_singleton. done. }
    split; [done|]. split.
    + split; [by split|]. by split.
    + intros j (_ & Hj & Hjfree). split.
      * intros <-. apply (Hjfree (Conn i false, Conn i true)); [|done].
        rewrite Hp. apply elem_of_app. right. by apply list_elem_of_singleton.
      * split; [by split|]. split; [done|].
        intros q Hq. apply Hjfree. rewrite Hp. apply elem_of_app. by left.
Qed.

Lemma new_pipe_Ok g : exists p g1, new_pipe g = (Ok p, g1).
Proof. destruct (new_pipe_cases g) as [[_ ->]|(l & p & _ & ->)]; eauto. Qed.

Lemma pool_step_held g op j : held j g -> held j (pool_step g op).
Proof.
  intros H. destruct op as [|pipe_s pipe_r]; cbn [pool_step].
  - destruct (new_pipe_Ok g) as (p & g1 & Hnew). rewrite Hnew. cbn.
    destruct (new_pipe_held g p g1 (proj1 H) Hnew) as (_ & _ & Hj). by apply Hj.
  - by rewrite dispose_pipe_pool.
Qed.

Lemma pool_steps_held g ops j : held j g -> held j (foldl pool_step g ops).
Proof.
  revert g. induction ops as [|op ops IH]; intros g H; cbn [foldl]; [done|].
  by apply IH, pool_step_held.
Qed.

Lemma init_pool_wf entropy accelerator devices workers_per_device timeout mbs :
  pool_wf (LitServer_init entropy accelerator devices workers_per_device timeout mbs).
Proof.
  split; unfold LitServer_init; cbn [pipe_pool next_pipe];
    change (map ?f ?l) with (f <$> l).
  - apply NoDup_fmap_2; [|apply NoDup_seq]. by intros i j [= ->].
  - apply list.Forall_forall. intros p Hp.
    apply list_elem_of_fmap in Hp as (i & -> & Hi).
    apply elem_of_seq in Hi. exists i. split; [done|lia].
Qed.
End PoolInvariant.

(** X11. A pair is never handed out twice: on a server whose pool is as
    [__init__] and [Pipe()] build it, once [new_pipe] has returned a pair, no
    later [new_pipe] returns that pair or an end of the same pipe, whatever
    acquisitions and releases come in between; and the two ends returned are
    always the two ends of one pipe. *)
Theorem pair_never_reissued (g g1 g2 : LitServer) (ops : list pool_op)
    (p p' : Connection * Connection) :
  pool_wf g ->
  new_pipe g = (Ok p, g1) ->
  new_pipe (foldl pool_step g1 ops) = (Ok p', g2) ->
  p.2 = peer p.1 /\ p'.2 = peer p'.1 /\
  conn_pipe p'.1 ≠ conn_pipe p.1 /\ p' ≠ p.
Proof.
  intros Hwf Hnew Hnew'.
  destruct (new_pipe_held g p g1 Hwf Hnew) as (Hp & Hheld & _).
  apply (pool_steps_held _ ops) in Hheld.
  destruct (new_pipe_held _ p' g2 (proj1 Hheld) Hnew') as (Hp' & _ & Hfresh).
  destruct (Hfresh _ Hheld) as [Hne _].
  split; [by rewrite Hp|]. split; [by rewrite Hp'|].
  split; [done|]. by intros ->.
Qed.

Lemma pair_never_reissued_witness :
  (Conn 99 false, Conn 99 true).2 = peer (Conn 99 false, Conn 99 true).1 /\
  (Conn 98 false, Conn 98 true).2 = peer (Conn 98 false, Conn 98 true).1 /\
  conn_pipe (Conn 98 false, Conn 98 true).1 ≠ conn_pipe (Conn 99 false, Conn 99 true).1 /\
  (Conn 98 false, Conn 98 true) ≠ (Conn 99 false, Conn 99 true).
Proof.
  apply (pair_never_reissued server_demo (new_pipe server_demo).2
           (new_pipe (foldl pool_step (new_pipe server_demo).2
                        [Release (Conn 99 false) (Conn 99 true)])).2
           [Release (Conn 99 false) (Conn 99 true)]).
  - apply init_pool_wf.
  - reflexivity.
  - reflexivity.
Defined.

(** ** The gateway, continued *)

(** X12. A [/predict] request whose reply is readable when the wait ends: the
    handler returns the first value waiting on its receiver, as it is, and
    takes it off the pipe; the cleanup of the request's identifier was
    scheduled, and the handler itself removed nothing from the table. *)
Theorem predict_returns_reply (env : Z -> shared -> shared) (request_data : pyval)
    (g g1 : LitServer) (u : uid) (pipe_r : Connection) (v : pyval) (vs : list pyval) :
  Routes.enqueue request_data g = (Ok (u, pipe_r), g1) ->
  pipe_r ∉ closed (env (app_timeout g1) (app_shared g1)) ->
  pending pipe_r (env (app_timeout g1) (app_shared g1)) = v :: vs ->
  (forall status_code detail, v ≠ PyHTTPException status_code detail) ->
  exists g2,
    Routes.predict env request_data g = (Ok v, g2) /\
    pending pipe_r (app_shared g2) = vs /\
    background_tasks g2 = background_tasks g ++ [CleanupTask u] /\
    request_buffer (app_shared g2)
      = request_buffer (env (app_timeout g1) (app_shared g1)).
Proof.
  intros Henq Hopen Hpend Hv.
  destruct (enqueue_Ok _ _ _ _ _ Henq) as (_ & Htasks & _ & _).
  eexists. split.
  - rewrite predict_enqueue, Henq.
    unfold on_app, Routes.get_from_pipe, poll, recv. unfold_monad.
    rewrite Hpend, decide_False by done. cbn.
    destruct v; try reflexivity. by destruct (Hv status_code detail).
  - cbn. split; [|by split].
    unfold pending. cbn. by rewrite lookup_insert_eq.
Qed.

Lemma predict_returns_reply_witness :
  exists g2,
    Routes.predict square_worker request_demo server_demo
      = (Ok (PyDict [("output", PyFloat 16)]), g2) /\
    pending (Conn 99 true) (app_shared g2) = [] /\
    background_tasks g2 = background_tasks server_demo ++ [CleanupTask 0%N] /\
    request_buffer (app_shared g2)
      = request_buffer
          (square_worker
             (app_timeout (Routes.enqueue request_demo server_demo).2)
             (app_shared (Routes.enqueue request_demo server_demo).2)).
Proof.
  apply (predict_returns_reply square_worker request_demo server_demo
           (Routes.enqueue request_demo server_demo).2 0%N (Conn 99 true)
           (PyDict [("output", PyFloat 16)]) []).
  - vm_compute. reflexivity.
  - apply (bool_decide_unpack _). by vm_compute.
  - vm_compute. reflexivity.
  - discriminate.
Defined.

Lemma new_pipe_frame (g g1 : LitServer) (p : Connection * Connection) :
  new_pipe g = (Ok p, g1) ->
  app_shared g1 = app_shared g /\ background_tasks g1 = background_tasks g /\
  app_timeout g1 = app_timeout g /\ uuid_drawn g1 = uuid_drawn g /\
  uuid_source g1 = uuid_source g.
Proof.
  destruct (new_pipe_cases g) as [[_ ->]|(l & p0 & _ & ->)];
    intros [= <- <-]; done.
Qed.

(** X13. The gateway and a replica together, for every API: on a server
    with an empty, open queue, whose next pair is the two open ends of a pipe
    with nothing waiting, a [/predict] request gets back exactly what the
    replica's encode stage returned for it, when the replica runs one turn of
    its loop during the wait and its three stages succeed on the request
    (the encoded reply not being an [HTTPException] object, which the
    handler would raise).  The replica has then taken the request off the
    queue and the table, and the pipe is empty again. *)
Theorem predict_end_to_end {S} (lit_api : LitAPI S) (self0 s1 s2 s3 : S)
    (request_data x y y_enc : pyval) (g g1 : LitServer)
    (pipe_s pipe_r : Connection) :
  queue_closed (app_shared g) = false ->
  request_queue (app_shared g) = [] ->
  new_pipe (uuid4 g).2 = (Ok (pipe_s, pipe_r), g1) ->
  pipe_r = peer pipe_s ->
  pipe_s ∉ closed (app_shared g) ->
  pipe_r ∉ closed (app_shared g) ->
  pending pipe_r (app_shared g) = [] ->
  decode_request lit_api request_data self0 = (Ok x, s1) ->
  predict lit_api x s1 = (Ok y, s2) ->
  encode_response lit_api y s2 = (Ok y_enc, s3) ->
  (forall status_code detail, y_enc ≠ PyHTTPException status_code detail) ->
  exists g2,
    Routes.predict (replica_turn lit_api self0) request_data g = (Ok y_enc, g2) /\
    request_queue (app_shared g2) = [] /\
    request_buffer (app_shared g2)
      = delete (uuid_source g (uuid_drawn g)) (request_buffer (app_shared g)) /\
    pending pipe_r (app_shared g2) = [] /\
    background_tasks g2
      = background_tasks g ++ [CleanupTask (uuid_source g (uuid_drawn g))].
Proof.
  intros Hc Hq Hnew -> Hs Hr Hpend Hd Hp He Hv.
  destruct (new_pipe_frame _ _ _ Hnew) as (Hsh & Htasks & Htime & _).
  cbn in Hsh, Htasks, Htime.
  set (u := uuid_source g (uuid_drawn g)).
  set (sh1 := set_request_queue [u]
                (set_request_buffer
                   (<[u := (request_data, pipe_s)]> (request_buffer (app_shared g)))
                   (app_shared g))).
  set (w0 := {| self := self0; wshared := sh1; log := [] |}).
  assert (single_loop lit_api 1 w0 =
            (Ok tt,
             {| self := s3;
                wshared := set_inbox (<[peer pipe_s := [y_enc]]> (inbox (app_shared g)))
                             (set_request_buffer
                                (delete u (<[u := (request_data, pipe_s)]>
                                             (request_buffer (app_shared g))))
                                (set_request_queue [] sh1));
                log := [CallDecode request_data; CallPredict x; CallEncode y;
                        Sent pipe_s y_enc] |})) as Hturn.
  { cbn [single_loop]. unfold single_loop_body.
    erewrite bind_Ok; [reflexivity|].
    erewrite bind_Ok;
      [|apply (fetch_taken w0 u [] request_data pipe_s); cbn; [done|done|
        apply lookup_insert_eq]].
    cbv beta iota.
    erewrite bind_Ok;
      [|rewrite call_decode_run; cbn [self w0]; rewrite Hd; cbn [fst snd]; reflexivity].
    erewrite bind_Ok;
      [|rewrite call_predict_run; cbn [self]; rewrite Hp; cbn [fst snd]; reflexivity].
    erewrite bind_Ok;
      [|rewrite call_encode_run; cbn [self]; rewrite He; cbn [fst snd]; reflexivity].
    rewrite send_reply_open by done. cbn.
    unfold pending in Hpend |- *. cbn.
    destruct (inbox (app_shared g) !! peer pipe_s) as [l|] eqn:E; cbn in *;
      by subst. }
  eexists. split.
  - unfold Routes.predict. unfold_monad. cbn [uuid4]. cbn [uuid4 snd] in Hnew.
    rewrite Hnew. unfold on_app, buffer_setitem, queue_put, add_task.
    unfold_monad. cbn. rewrite Hsh. rewrite Hc. cbn.
    unfold Routes.get_from_pipe, replica_turn. rewrite Hq. cbn [app].
    fold u. fold sh1. fold w0. rewrite Hturn. cbn [snd wshared].
    unfold poll, recv, pending. cbn. rewrite lookup_insert_eq. cbn.
    rewrite decide_False by done. cbn.
    destruct y_enc; try reflexivity. by destruct (Hv status_code detail).
  - cbn. rewrite delete_insert_eq. rewrite Htasks. repeat split.
    unfold pending. cbn. by rewrite lookup_insert_eq.
Qed.

Lemma predict_end_to_end_witness :
  exists g2,
    Routes.predict (replica_turn SimpleLitAPI.api {| model_fn := Some py_square |})
                   (PyDict [("input", PyFloat 4)]) server_demo
      = (Ok (PyDict [("output", PyFloat 16)]), g2) /\
    request_queue (app_shared g2) = [] /\
    request_buffer (app_shared g2)
      = delete (uuid_source server_demo (uuid_drawn server_demo))
               (request_buffer (app_shared server_demo)) /\
    pending (Conn 99 true) (app_shared g2) = [] /\
    background_tasks g2
      = background_tasks server_demo
          ++ [CleanupTask (uuid_source server_demo (uuid_drawn server_demo))].
Proof.
  apply (predict_end_to_end SimpleLitAPI.api
           {| model_fn := Some py_square |} {| model_fn := Some py_square |}
           {| model_fn := Some py_square |} {| model_fn := Some py_square |}
           (PyDict [("input", PyFloat 4)]) (PyFloat 4) (PyFloat 16)
           (PyDict [("output", PyFloat 16)])
           server_demo (new_pipe (uuid4 server_demo).2).2
           (Conn 99 false) (Conn 99 true));
    try reflexivity; try apply not_elem_of_empty; done.
Defined.

(** X14. A supported chat-completion request for no completion at all
    ([n] zero or negative) is answered at once with an empty list of
    choices and zero usage, under the requested model name or "litserve";
    nothing is dispatched and the server is left as it was. *)
Theorem chat_no_completions (env : Z -> shared -> shared)
    (request : ChatCompletionRequest) (g : LitServer) :
  Routes.check_parameters request = Ok tt ->
  n request <= 0 ->
  Routes.chat env request g =
    (Ok {| response_model := Routes.model_or_default request;
           choices := []; usage := UsageInfo_default |}, g).
Proof.
  intros Hcheck Hn. unfold Routes.chat, Routes.fan_out. unfold_monad.
  rewrite Hcheck. by rewrite Z2Nat.nonpos.
Qed.

Lemma chat_no_completions_witness :
  Routes.chat idle no_completion_request server_demo =
    (Ok {| response_model := "litserve"; choices := [];
           usage := UsageInfo_default |}, server_demo).
Proof.
  apply (chat_no_completions idle no_completion_request server_demo).
  - reflexivity.
  - discriminate.
Defined.

Lemma mapM_frame {St A B} (R : St -> St -> Prop) (f : A -> M St B) :
  (forall s, R s s) -> (forall s1 s2 s3, R s1 s2 -> R s2 s3 -> R s1 s3) ->
  (forall x s, R s (f x s).2) ->
  forall l s, R s (mapM f l s).2.
Proof.
  intros Hrefl Htrans Hf l. induction l as [|x l IH]; intros s; cbn; [done|].
  unfold_monad. specialize (Hf x s).
  destruct (f x s) as [[y|e] s1]; cbn in *; [|done].
  specialize (IH s1). destruct (mapM f l s1) as [[k|e] s2]; cbn in *; eauto.
Qed.

Lemma mapM_uuid4 {A} (l : list A) :
  forall g,
    mapM (fun _ => uuid4) l g =
      (Ok (drawn g (length l)), set_uuid_drawn (uuid_drawn g + length l) g).
Proof.
  unfold drawn. induction l as [|x l IH]; intros g; cbn [mapM length].
  - cbn. rewrite Nat.add_0_r. by destruct g.
  - unfold mbind at 1, M_bind. cbn [uuid4].
    unfold mbind at 1, M_bind. rewrite IH. cbn.
    rewrite Nat.add_0_r, <- seq_shift, map_map.
    unfold mret, M_ret. f_equal.
    + do 2 f_equal. apply map_ext. intros i. f_equal. lia.
    + unfold set_uuid_drawn. cbn. f_equal. lia.
Qed.

Lemma dispatch_tasks (request : ChatCompletionRequest) (u : uid)
    (g g1 : LitServer) (pipe_r : Connection) :
  Routes.dispatch request u g = (Ok pipe_r, g1) ->
  background_tasks g1 = background_tasks g ++ [CleanupTask u] /\
  uuid_drawn g1 = uuid_drawn g.
Proof.
  unfold Routes.dispatch, add_task, on_app, buffer_setitem, queue_put.
  unfold_monad.
  destruct (new_pipe_cases g) as [[_ ->]|(l & p & _ & ->)]; cbn;
    [|destruct p as [ps pr]; cbn];
    destruct (queue_closed (app_shared g)); cbn; intros [= <- <-]; done.
Qed.

Lemma mapM_dispatch_tasks (request : ChatCompletionRequest) (uids : list uid) :
  forall g pipes g1,
    mapM (Routes.dispatch request) uids g = (Ok pipes, g1) ->
    background_tasks g1 = background_tasks g ++ map CleanupTask uids /\
    uuid_drawn g1 = uuid_drawn g.
Proof.
  induction uids as [|u uids IH]; intros g pipes g1; cbn [mapM map].
  - intros [= <- <-]. by rewrite app_nil_r.
  - unfold_monad.
    destruct (Routes.dispatch request u g) as [[pipe_r|e] g0] eqn:Hd; [|done].
    destruct (mapM (Routes.dispatch request) uids g0) as [[k|e] g2] eqn:Hm; [|done].
    intros [= <- <-].
    apply dispatch_tasks in Hd as [Ht Hu]. apply IH in Hm as [Ht' Hu'].
    rewrite Ht', Ht, <- app_assoc. split; [done|congruence].
Qed.

Lemma await_reply_frame (env : Z -> shared -> shared) (pipe_r : Connection)
    (g : LitServer) :
  background_tasks (Routes.await_reply env pipe_r g).2 = background_tasks g /\
  uuid_drawn (Routes.await_reply env pipe_r g).2 = uuid_drawn g.
Proof.
  unfold Routes.await_reply. unfold_monad. rewrite on_app_Ok. done.
Qed.

Lemma cleanups_clear (ts : list task) (b : gmap uid (pyval * Connection)) (u : uid) :
  b !! u = None \/ CleanupTask u ∈ ts ->
  foldl (fun b t => match t with CleanupTask u => delete u b end) b ts !! u = None.
Proof.
  revert b. induction ts as [|[u'] ts IH]; intros b [H|H]; cbn [foldl].
  - done.
  - by apply elem_of_nil in H.
  - apply IH. left. destruct (decide (u' = u)) as [->|Hne].
    + apply lookup_delete_eq.
    + by rewrite lookup_delete_ne.
  - apply IH. apply elem_of_cons in H as [[= ->]|H]; [|by right].
    left. apply lookup_delete_eq.
Qed.

(** X15. A fan-out that got through its dispatch and its waits has drawn
    [n] identifiers and scheduled the cleanup of each of them, in order,
    after the tasks that were scheduled before; once the scheduled tasks
    have run, none of these identifiers is left in the table, whatever the
    workers did with them. *)
Theorem fan_out_cleanups (env : Z -> shared -> shared)
    (request : ChatCompletionRequest) (g g1 : LitServer) (responses : list pyval) :
  Routes.fan_out env request g = (Ok responses, g1) ->
  background_tasks g1
    = background_tasks g ++ map CleanupTask (drawn g (Z.to_nat (n request))) /\
  uuid_drawn g1 = (uuid_drawn g + Z.to_nat (n request))%nat /\
  exists g2,
    run_background_tasks g1 = (Ok tt, g2) /\
    background_tasks g2 = [] /\
    forall u, u ∈ drawn g (Z.to_nat (n request)) ->
              request_buffer (app_shared g2) !! u = None.
Proof.
  unfold Routes.fan_out.
  rewrite (bind_Ok _ _ _ _ _ (mapM_uuid4 _ g)), length_seq.
  destruct (mapM (Routes.dispatch request) (drawn g (Z.to_nat (n request)))
              (set_uuid_drawn (uuid_drawn g + Z.to_nat (n request)) g))
    as [[pipes|e] g0] eqn:Hd;
    [rewrite (bind_Ok _ _ _ _ _ Hd)|by rewrite (bind_Raise _ _ _ _ _ Hd)].
  intros Hw.
  apply mapM_dispatch_tasks in Hd as [Ht Hu]. cbn in Ht, Hu.
  pose proof (mapM_frame
                (fun a b => background_tasks b = background_tasks a /\
                            uuid_drawn b = uuid_drawn a)
                (Routes.await_reply env)) as Hframe.
  destruct (Hframe (fun s => conj eq_refl eq_refl)
              (fun s1 s2 s3 H12 H23 =>
                 conj (eq_trans (proj1 H23) (proj1 H12))
                      (eq_trans (proj2 H23) (proj2 H12)))
              (await_reply_frame env) pipes g0) as [Ht' Hu'].
  rewrite Hw in Ht', Hu'. cbn in Ht', Hu'.
  assert (background_tasks g1
          = background_tasks g ++ map CleanupTask (drawn g (Z.to_nat (n request))))
    as Htasks by congruence.
  split; [done|]. split; [congruence|].
  unfold run_background_tasks. cbn [background_tasks set_background_tasks].
  destruct (run_tasks_spec (background_tasks g1) (app_shared g1))
    as (s' & Hrun & Hbuf & _).
  eexists. split; [|split].
  - unfold on_app. unfold_monad. cbn. by rewrite Hrun.
  - done.
  - intros u Hin. cbn. rewrite Hbuf. apply cleanups_clear. right.
    rewrite Htasks. apply elem_of_app. right.
    change (map CleanupTask ?l) with (CleanupTask <$> l).
    by apply list_elem_of_fmap_2.
Qed.

Lemma fan_out_cleanups_witness :
  background_tasks (Routes.fan_out canned_replies fan_out_request server_demo).2
    = [CleanupTask 0%N; CleanupTask 1%N] /\
  uuid_drawn (Routes.fan_out canned_replies fan_out_request server_demo).2 = 2%nat /\
  exists g2,
    run_background_tasks (Routes.fan_out canned_replies fan_out_request server_demo).2
      = (Ok tt, g2) /\
    background_tasks g2 = [] /\
    forall u, u ∈ [0%N; 1%N] -> request_buffer (app_shared g2) !! u = None.
Proof.
  apply (fan_out_cleanups canned_replies fan_out_request server_demo
           (Routes.fan_out canned_replies fan_out_request server_demo).2
           [reply_a; reply_b]).
  vm_compute. reflexivity.
Defined.

Lemma check_parameters_raises (request : ChatCompletionRequest) (e : pyexn) :
  Routes.check_parameters request = Raise e ->
  unsupported request /\ exists detail, e = HTTPException 400 detail.
Proof.
  unfold Routes.check_parameters, unsupported.
  case_bool_decide as Hstream; [intros [= <-]; eauto|].
  case_bool_decide as Hstop; [intros [= <-]; eauto|].
  destruct (truthy (frequency_penalty request)) eqn:Hf.
  { intros [= <-]. apply truthy_nonzero in Hf. eauto 10. }
  destruct (truthy (presence_penalty request)) eqn:Hp.
  { intros [= <-]. apply truthy_nonzero in Hp. eauto 10. }
  case_bool_decide as Hmax; [intros [= <-]; eauto 10|].
  destruct (differs_from_one (top_p request)) eqn:Ht; [|done].
  intros [= <-]. apply differs_from_one_not_one in Ht. eauto 10.
Qed.

(** X16. The parameter checks of [chat] accept exactly the requests that set
    no unsupported parameter: such a request passes, and every other one is
    rejected with a 400 error and with no other error. *)
Theorem check_parameters_exact (request : ChatCompletionRequest) :
  (~ unsupported request /\ Routes.check_parameters request = Ok tt) \/
  (unsupported request /\
   exists detail, Routes.check_parameters request = Raise (HTTPException 400 detail)).
Proof.
  destruct (Routes.check_parameters request) as [[]|e] eqn:E.
  - left. split; [|done]. by apply check_parameters_supported.
  - right. apply check_parameters_raises in E as [Hu [d ->]]. eauto.
Qed.

Lemma aggregate_first_bad (pre post : list pyval) (r : pyval) (e : pyexn) :
  Forall arrived pre ->
  py_getitem r "text" = Raise e ->
  forall i cs u,
    Routes.aggregate i (pre ++ r :: post) cs u = Raise e.
Proof.
  intros Hpre Hr. induction Hpre as [|r0 pre Hr0 _ IH]; intros i cs u;
    cbn [app Routes.aggregate].
  - unfold Routes.aggregate_one. unfold_monad. by rewrite Hr.
  - unfold_monad. rewrite aggregate_one_arrived by done. apply IH.
Qed.

(** X17. A sub-response that cannot be subscripted with ["text"] makes the
    whole chat completion fail: when the sub-responses before it are well
    formed, the handler ends with the error of that subscript ([KeyError]
    for a dictionary without the key, [TypeError] for a value that is no
    dictionary), and returns no choice at all, not even for the
    sub-responses that were fine. *)
Theorem chat_malformed_response (env : Z -> shared -> shared)
    (request : ChatCompletionRequest) (g g1 : LitServer)
    (pre post : list pyval) (r : pyval) (e : pyexn) :
  Routes.check_parameters request = Ok tt ->
  Routes.fan_out env request g = (Ok (pre ++ r :: post), g1) ->
  Forall arrived pre ->
  py_getitem r "text" = Raise e ->
  Routes.chat env request g = (Raise e, g1).
Proof.
  intros Hcheck Hfan Hpre Hr.
  unfold Routes.chat, Routes.respond. unfold_monad.
  by rewrite Hcheck, Hfan, (aggregate_first_bad pre post r e Hpre Hr).
Qed.

Lemma chat_malformed_response_witness :
  Routes.chat textless_replies fan_out_request server_demo
    = (Raise KeyError, (Routes.fan_out textless_replies fan_out_request server_demo).2).
Proof.
  apply (chat_malformed_response textless_replies fan_out_request server_demo
           (Routes.fan_out textless_replies fan_out_request server_demo).2
           [] [PyDict []] (PyDict []) KeyError).
  - reflexivity.
  - vm_compute. reflexivity.
  - constructor.
  - reflexivity.
Defined.

(** ** Devices, continued *)

Lemma format_int_parse (z : Z) : parse_int (format_int z) = Some z.
Proof.
  unfold parse_int, format_int. rewrite NilZero.isi.
  - cbn. by rewrite DecimalZ.of_to.
  - destruct z as [|p|p]; cbn; [discriminate| |discriminate].
    intros [= H]. by apply DecimalPos.Unsigned.to_uint_nonnil in H.
  - destruct z as [|p|p]; cbn; [discriminate|discriminate|].
    intros [= H]. by apply DecimalPos.Unsigned.to_uint_nonnil in H.
Qed.

Lemma append_inj (s a b : string) : String.append s a = String.append s b -> a = b.
Proof. induction s as [|c s IH]; cbn; [done|]. intros [= H]. by apply IH. Qed.

Lemma identifier_inj (accelerator : string) (i j : Z) :
  identifier accelerator i = identifier accelerator j -> i = j.
Proof.
  unfold identifier. intros H. do 2 apply append_inj in H.
  apply (f_equal parse_int) in H. rewrite !format_int_parse in H. congruence.
Qed.

(** X18. Device identifiers can be read back: the decimal index written
    after the colon parses to the index it was written from, so two indices
    get the same identifier only if they are equal; the devices of a count
    [k] are therefore [k] pairwise different identifiers (none for a count
    that is not positive). *)
Theorem device_identifiers_distinct (accelerator : string) (i j k : Z) :
  parse_int (format_int i) = Some i /\
  (identifier accelerator i = identifier accelerator j -> i = j) /\
  NoDup (map (identifier accelerator) (range k)) /\
  length (map (identifier accelerator) (range k)) = Z.to_nat k.
Proof.
  split; [apply format_int_parse|]. split; [apply identifier_inj|].
  unfold range. change (map ?f ?l) with (f <$> l). split.
  - apply NoDup_fmap_2; [intros a b; apply identifier_inj|].
    apply NoDup_fmap_2; [intros a b; apply Nat2Z.inj|]. apply NoDup_seq.
  - by rewrite !length_fmap, length_seq.
Qed.

Lemma device_identifiers_distinct_witness :
  parse_int (format_int 7) = Some 7 /\
  (identifier "cuda" 7 = identifier "cuda" 8 -> 7 = 8) /\
  NoDup (map (identifier "cuda") (range 3)) /\
  length (map (identifier "cuda") (range 3)) = Z.to_nat 3.
Proof. apply (device_identifiers_distinct "cuda" 7 8 3). Defined.

(** X19. An accelerator other than "cpu", "cuda" and "gpu" is accepted by
    the constructor, which stores no device list for it, and fails the
    start-up: [lifespan] raises [AttributeError] and starts no process. *)
Theorem unknown_accelerator_fails (entropy : nat -> uid) (accelerator : string)
    (devices : devices_arg) (workers_per_device timeout max_batch_size : Z) :
  accelerator ∉ ["cpu"; "cuda"; "gpu"] ->
  app_devices (LitServer_init entropy accelerator devices workers_per_device
                              timeout max_batch_size) = None /\
  (lifespan (LitServer_init entropy accelerator devices workers_per_device
                            timeout max_batch_size)).1 = Raise AttributeError.
Proof.
  intros H.
  assert (init_devices accelerator devices = None) as Hnone.
  { unfold init_devices.
    destruct (String.eqb_spec accelerator "cpu") as [->|_]; [set_solver|].
    destruct (String.eqb_spec accelerator "cuda") as [->|_]; [set_solver|].
    destruct (String.eqb_spec accelerator "gpu") as [->|_]; [set_solver|]. done. }
  split; [done|]. unfold lifespan, LitServer_init. cbn [app_devices set_app_shared].
  by rewrite Hnone.
Qed.

Lemma unknown_accelerator_fails_witness :
  app_devices (LitServer_init (fun i => N.of_nat i) "mps" (DeviceCount 1) 1 30 1)
    = None /\
  (lifespan (LitServer_init (fun i => N.of_nat i) "mps" (DeviceCount 1) 1 30 1)).1
    = Raise AttributeError.
Proof.
  apply (unknown_accelerator_fails (fun i => N.of_nat i) "mps" (DeviceCount 1) 1 30 1).
  apply (bool_decide_unpack _). by vm_compute.
Defined.

(** ** Authentication *)

(** X20. Who gets past the dependency of the routes.  When the key is unset
    or empty every request does, whatever header it carries or lacks.  When
    the key is a non-empty string, exactly the requests whose header equals
    the key do: a header that is present, not empty and different is refused
    by [api_key_auth] with the 401 error, and a request with no header or an
    empty one is refused by the framework's header dependency, before
    [api_key_auth] is called. *)
Theorem index_auth (not_authenticated : pyexn) (LIT_SERVER_API_KEY : option string)
    (header : option string) :
  (Auth.index not_authenticated LIT_SERVER_API_KEY header = Ok "litserve running"
   <-> LIT_SERVER_API_KEY = None \/ LIT_SERVER_API_KEY = Some "" \/
       (exists key, LIT_SERVER_API_KEY = Some key /\ header = Some key)) /\
  (forall key x_api_key,
     LIT_SERVER_API_KEY = Some key -> key ≠ "" ->
     header = Some x_api_key -> x_api_key ≠ "" -> x_api_key ≠ key ->
     Auth.index not_authenticated LIT_SERVER_API_KEY header
       = Raise (HTTPException 401 Auth.invalid_key_detail)) /\
  (forall key,
     LIT_SERVER_API_KEY = Some key -> key ≠ "" ->
     header = None \/ header = Some "" ->
     Auth.index not_authenticated LIT_SERVER_API_KEY header = Raise not_authenticated).
Proof.
  unfold Auth.index, Auth.depends, Auth.setup_auth, Auth.APIKeyHeader,
    Auth.api_key_auth, Auth.no_auth.
  split; [|split].
  - destruct LIT_SERVER_API_KEY as [[|c key]|]; cbn;
      [split; [intros _; by right; left|done]| |split; [intros _; by left|done]].
    destruct header as [[|c' h]|]; cbn.
    + split; [done|]. intros [?|[?|(k & [= <-] & ?)]]; done.
    + case_bool_decide as H; cbn.
      * split; [done|]. intros [?|[?|(k & [= <-] & [= -> ->])]]; done.
      * split; [|done]. intros _. right. right. exists (String c key).
        split; [done|].
        destruct (decide (Some (String c' h) = Some (String c key))) as [->|];
          [done|]. by destruct H.
    + split; [done|]. intros [?|[?|(k & [= <-] & ?)]]; done.
  - intros key x_api_key -> Hkey -> Hx Hne.
    destruct key as [|c key]; [done|]. destruct x_api_key as [|c' h]; [done|].
    cbn. rewrite bool_decide_true by congruence. done.
  - intros key -> Hkey Hh.
    destruct key as [|c key]; [done|]. by destruct Hh as [-> | ->].
Qed.

(** ** The fan-out and a replica together *)

(** X22. The chat-completion handler and a replica of the OpenAI example API
    together: on a server with an empty, open queue, whose next pair is the
    two open ends of a pipe with nothing waiting, a supported request for
    one completion is answered with the single choice of index 0, role
    "assistant", content "This is a generated output" and finish reason
    "stop", with zero usage, under the requested model name or "litserve",
    when the replica runs one turn of its loop during the wait. *)
Theorem chat_openai_end_to_end (g g1 : LitServer) (request : ChatCompletionRequest)
    (pipe_s pipe_r : Connection) :
  Routes.check_parameters request = Ok tt ->
  n request = 1 ->
  queue_closed (app_shared g) = false ->
  request_queue (app_shared g) = [] ->
  new_pipe (uuid4 g).2 = (Ok (pipe_s, pipe_r), g1) ->
  pipe_r = peer pipe_s ->
  pipe_s ∉ closed (app_shared g) ->
  pipe_r ∉ closed (app_shared g) ->
  pending pipe_r (app_shared g) = [] ->
  exists g2,
    Routes.chat openai_worker request g
      = (Ok {| response_model := Routes.model_or_default request;
               choices := [generated_choice];
               usage := UsageInfo_default |}, g2) /\
    request_queue (app_shared g2) = [] /\
    request_buffer (app_shared g2)
      = delete (uuid_source g (uuid_drawn g)) (request_buffer (app_shared g)) /\
    background_tasks g2
      = background_tasks g ++ [CleanupTask (uuid_source g (uuid_drawn g))].
Proof.
  intros Hcheck Hn Hc Hq Hnew -> Hs Hr Hpend.
  destruct (new_pipe_frame _ _ _ Hnew) as (Hsh & Htasks & Htime & _).
  cbn in Hsh, Htasks, Htime. cbn [uuid4 snd] in Hnew.
  set (u := uuid_source g (uuid_drawn g)).
  set (rd := PyChatRequest request).
  set (reply := PyDict [("text", PyStr "This is a generated output")]).
  set (sh1 := set_request_queue [u]
                (set_request_buffer (<[u := (rd, pipe_s)]> (request_buffer (app_shared g)))
                   (app_shared g))).
  set (w0 := {| self := {| OpenAILitAPI.model_set := true;
                           OpenAILitAPI.printed_lines := [] |};
                wshared := sh1; log := [] |}).
  assert (single_loop OpenAILitAPI.api 1 w0 =
            (Ok tt,
             {| self := {| OpenAILitAPI.model_set := true;
                           OpenAILitAPI.printed_lines :=
                             ["decode_request called from LitAPI";
                              "encode_response called from LitAPI"] |};
                wshared :=
                  set_inbox (<[peer pipe_s := [reply]]> (inbox (app_shared g)))
                    (set_request_buffer
                       (delete u (<[u := (rd, pipe_s)]> (request_buffer (app_shared g))))
                       (set_request_queue [] sh1));
                log := [CallDecode rd; CallPredict rd;
                        CallEncode (PyStr "This is a generated output");
                        Sent pipe_s reply] |})) as Hturn.
  { cbn [single_loop]. unfold single_loop_body.
    erewrite bind_Ok; [reflexivity|].
    erewrite bind_Ok;
      [|apply (fetch_taken w0 u [] rd pipe_s); cbn; [done|done|
        apply lookup_insert_eq]].
    cbv beta iota.
    erewrite bind_Ok; [|rewrite call_decode_run; reflexivity].
    erewrite bind_Ok; [|rewrite call_predict_run; reflexivity].
    erewrite bind_Ok; [|rewrite call_encode_run; reflexivity].
    rewrite send_reply_open by done. cbn.
    unfold pending in Hpend |- *. cbn.
    destruct (inbox (app_shared g) !! peer pipe_s) as [l|] eqn:E; cbn in *;
      by subst. }
  eexists. split.
  - unfold Routes.chat, Routes.fan_out. unfold_monad. rewrite Hcheck, Hn.
    change (Z.to_nat 1) with 1%nat. cbn [seq mapM].
    unfold_monad. cbn [uuid4].
    unfold Routes.dispatch. cbn [mapM]. unfold_monad. rewrite Hnew.
    unfold on_app, buffer_setitem, queue_put, add_task. unfold_monad.
    cbn. rewrite Hsh, Hc. cbn.
    unfold Routes.await_reply, on_app. unfold_monad. cbn.
    unfold Routes.get_from_pipe, openai_worker. rewrite Hq. cbn [app].
    fold u rd. fold sh1. fold w0. rewrite Hturn. cbn [snd wshared].
    unfold poll, recv, pending. cbn. rewrite lookup_insert_eq. cbn.
    rewrite decide_False by done. cbn. reflexivity.
  - cbn. rewrite delete_insert_eq, Htasks. done.
Qed.

Lemma chat_openai_end_to_end_witness :
  exists g2,
    Routes.chat openai_worker single_request server_demo
      = (Ok {| response_model := "demo"; choices := [generated_choice];
               usage := UsageInfo_default |}, g2) /\
    request_queue (app_shared g2) = [] /\
    request_buffer (app_shared g2)
      = delete (uuid_source server_demo (uuid_drawn server_demo))
               (request_buffer (app_shared server_demo)) /\
    background_tasks g2
      = background_tasks server_demo
          ++ [CleanupTask (uuid_source server_demo (uuid_drawn server_demo))].
Proof.
  apply (chat_openai_end_to_end server_demo (new_pipe (uuid4 server_demo).2).2
           single_request (Conn 99 false) (Conn 99 true));
    try reflexivity; apply not_elem_of_empty.
Defined.

(** X23. Whatever is acquired and released on a server as the constructor
    builds it, the pool never holds more pairs than the 100 it starts with,
    so it stays below the maximum of 1000: an acquisition removes a pair or
    leaves the empty pool empty, and a release never adds one. *)
Theorem pool_size_bounded (entropy : nat -> uid) (accelerator : string)
    (devices : devices_arg) (workers_per_device timeout max_batch_size : Z)
    (ops : list pool_op) :
  let g := foldl pool_step
             (LitServer_init entropy accelerator devices workers_per_device
                             timeout max_batch_size) ops in
  (length (pipe_pool g) <= 100)%nat /\
  Z.of_nat (length (pipe_pool g)) < max_pool_size g /\
  forall pipe_s pipe_r, pipe_pool (dispose_pipe pipe_s pipe_r g).2 = pipe_pool g.
Proof.
  cbv zeta.
  set (g0 := LitServer_init entropy accelerator devices workers_per_device
                            timeout max_batch_size).
  pose proof (pool_never_grows ops g0) as Hle.
  assert (length (pipe_pool g0) = 100%nat) as H0.
  { unfold g0, LitServer_init. cbn [pipe_pool]. by rewrite length_map, length_seq. }
  assert (max_pool_size (foldl pool_step g0 ops) = 1000) as Hmax.
  { clear Hle H0. assert (max_pool_size g0 = 1000) as H by done. revert H.
    generalize g0. induction ops as [|op ops IH]; intros g H; cbn [foldl]; [done|].
    apply IH. destruct op as [|pipe_s pipe_r]; cbn [pool_step].
    - destruct (new_pipe_cases g) as [[_ ->]|(l & p & _ & ->)]; done.
    - by rewrite dispose_pipe_pool. }
  split; [lia|]. split; [lia|]. intros pipe_s pipe_r. by rewrite dispose_pipe_pool.
Qed.
